(** * Departure feed of server.js: extraction of flight records and cache policy

    A shallow embedding of [server.js]: the helper functions that turn the
    cells of the airport's flight table into records
    ([getAirlineNameFromUrl], [calculateDelayMinutes], [parseTimeAndDelay],
    [parseFlights]) and the handler of [GET /api/departures] with its
    in-memory cache.

    Conventions of the embedding.
    - A JavaScript string is a [string]: a sequence of code units, of which
      the model keeps those below 256.
    - A JavaScript number is a [jsnum]: [NaN] or an integer.  The numbers
      the program computes with (minutes of a day, milliseconds of the
      clock) are integers far below 2^53, where the arithmetic of doubles
      is exact.
    - A thrown exception is the [Throw] case of [result].
    - The document that [cheerio.load] builds is a tree of [node]s; the
      HTML parser itself is a library and is not modelled. *)

From Stdlib Require Import ZArith List Bool Ascii String DecimalString Lia.
From Equations Require Import Equations.
Import ListNotations.

Open Scope string_scope.
Open Scope Z_scope.

(* ===================================================================== *)
(** ** JavaScript values *)
(* ===================================================================== *)

Module JS.

(** Numbers: [NaN] or an integer. *)
Inductive jsnum : Type :=
| NaN
| Int (z : Z).

Definition js_mul (a b : jsnum) : jsnum :=
  match a, b with Int x, Int y => Int (x * y) | _, _ => NaN end.

Definition js_add (a b : jsnum) : jsnum :=
  match a, b with Int x, Int y => Int (x + y) | _, _ => NaN end.

Definition js_sub (a b : jsnum) : jsnum :=
  match a, b with Int x, Int y => Int (x - y) | _, _ => NaN end.

(** [a < b]: false as soon as one side is NaN. *)
Definition js_lt (a b : jsnum) : bool :=
  match a, b with Int x, Int y => x <? y | _, _ => false end.

(** [Math.max(a, b)]: NaN as soon as one argument is NaN. *)
Definition Math_max (a b : jsnum) : jsnum :=
  match a, b with Int x, Int y => Int (Z.max x y) | _, _ => NaN end.

(** Exceptions. *)
Inductive result (A : Type) : Type :=
| Ok (a : A)
| Throw (message : string).
Arguments Ok {A} a.
Arguments Throw {A} message.

Definition bind {A B} (r : result A) (k : A -> result B) : result B :=
  match r with Ok a => k a | Throw m => Throw m end.

(** [try { body } catch (e) { handler e }] *)
Definition try_catch {A} (body : result A) (handler : string -> A) : A :=
  match body with Ok a => a | Throw m => handler m end.

(** The values a caller can pass where the program expects a string. *)
Inductive jsval : Type :=
| JUndefined
| JNull
| JBool (b : bool)
| JNum (n : jsnum)
| JStr (s : string).

(** ToBoolean. *)
Definition truthy (v : jsval) : bool :=
  match v with
  | JUndefined | JNull => false
  | JBool b => b
  | JNum NaN => false
  | JNum (Int z) => negb (z =? 0)
  | JStr s => negb (s =? "")%string
  end.

(** *** Characters *)

Definition code (c : ascii) : Z := Z.of_nat (nat_of_ascii c).

(** The class [[0-9]]. *)
Definition isDigit (c : ascii) : bool := (48 <=? code c) && (code c <=? 57).

(** White space and line terminators, as [trim] understands them, among the
    code units below 256: TAB, LF, VT, FF, CR, SP and NBSP. *)
Definition isSpace (c : ascii) : bool :=
  ((9 <=? code c) && (code c <=? 13)) || (code c =? 32) || (code c =? 160).

(** Lower-casing of one code unit below 256: A-Z, and the Latin-1 capitals
    U+00C0..U+00DE except the multiplication sign U+00D7. *)
Definition lower (c : ascii) : ascii :=
  let n := code c in
  if ((65 <=? n) && (n <=? 90))
     || ((192 <=? n) && (n <=? 222) && negb (n =? 215))
  then ascii_of_nat (Z.to_nat (n + 32))
  else c.

(** *** String methods *)

Fixpoint toLowerCase (s : string) : string :=
  match s with
  | "" => ""
  | String c r => String (lower c) (toLowerCase r)
  end.

Fixpoint trimStart (s : string) : string :=
  match s with
  | "" => ""
  | String c r => if isSpace c then trimStart r else s
  end.

Fixpoint trimEnd (s : string) : string :=
  match s with
  | "" => ""
  | String c r =>
      match trimEnd r with
      | "" => if isSpace c then "" else String c ""
      | r' => String c r'
      end
  end.

Definition trim (s : string) : string := trimEnd (trimStart s).

(** [s.includes(needle)] *)
Fixpoint includes (needle s : string) : bool :=
  String.prefix needle s ||
  match s with
  | "" => false
  | String _ r => includes needle r
  end.

(** [s.split(sep)] for a separator of one character: never empty. *)
Fixpoint split (sep : ascii) (s : string) : list string :=
  match s with
  | "" => [""]
  | String c r =>
      if Ascii.eqb c sep then "" :: split sep r
      else match split sep r with
           | [] => [String c ""]
           | p :: ps => String c p :: ps
           end
  end.

(** [a.pop()] read as a value: the last element, [undefined] on []. *)
Definition pop {A} (l : list A) : option A := List.last (map Some l) None.

(** [s.replace(/-/g, ' ')] *)
Fixpoint replace_hyphens (s : string) : string :=
  match s with
  | "" => ""
  | String c r =>
      String (if Ascii.eqb c "-" then " "%char else c) (replace_hyphens r)
  end.

(** [Number(s)] on a string of decimal digits, and on the empty string,
    which is 0; exact while the value stays below 2^53.  The other numeric
    literals (sign, fraction, exponent, radix prefix, surrounding white
    space, Infinity) read as NaN here: no piece of a match of the time
    pattern has one of them, and a piece has two digits at most. *)
Fixpoint digits_value (acc : Z) (s : string) : jsnum :=
  match s with
  | "" => Int acc
  | String c r =>
      if isDigit c then digits_value (10 * acc + (code c - 48)) r else NaN
  end.

Definition Number (s : string) : jsnum := digits_value 0 s.

End JS.
Import JS.

(* ===================================================================== *)
(** ** TimeDelay: calculateDelayMinutes and parseTimeAndDelay *)
(* ===================================================================== *)

(** [const [h, m] = s.split(':').map(Number)]: a missing second element is
    [undefined], which turns every sum it enters into NaN. *)
Definition hours_minutes (s : string) : jsnum * jsnum :=
  match map Number (split ":" s) with
  | h :: m :: _ => (h, m)
  | [h] => (h, NaN)
  | [] => (NaN, NaN)
  end.

Definition calculateDelayMinutes (std etd : string) : jsnum :=
  if (std =? etd)%string then Int 0
  else
    let '(stdH, stdM) := hours_minutes std in
    let '(etdH, etdM) := hours_minutes etd in
    let stdMinutes := js_add (js_mul stdH (Int 60)) stdM in
    let etdMinutes := js_add (js_mul etdH (Int 60)) etdM in
    let etdMinutes :=
      if js_lt etdMinutes (js_sub stdMinutes (Int (12 * 60)))
      then js_add etdMinutes (Int (24 * 60))
      else etdMinutes in
    Math_max (Int 0) (js_sub etdMinutes stdMinutes).

(** *** The pattern [/([0-9]{1,2}:[0-9]{2})/g] *)

(** [[0-9]] at the head of [s]. *)
Definition one_digit (s : string) : option (string * string) :=
  match s with
  | String a r => if isDigit a then Some (String a "", r) else None
  | _ => None
  end.

(** [[0-9]{2}] at the head of [s]. *)
Definition two_digits (s : string) : option (string * string) :=
  match s with
  | String a (String b r) =>
      if isDigit a && isDigit b then Some (String a (String b ""), r)
      else None
  | _ => None
  end.

(** [:[0-9]{2}] at the head of [s]. *)
Definition colon_minutes (s : string) : option (string * string) :=
  match s with
  | String c r =>
      if Ascii.eqb c ":" then
        match two_digits r with
        | Some (m, r') => Some (String ":" m, r')
        | None => None
        end
      else None
  | _ => None
  end.

(** The hour [h] is matched; the rest of the pattern against [r]. *)
Definition after_hour (h r : string) : option (string * string) :=
  match colon_minutes r with
  | Some (m, r') => Some (h ++ m, r')
  | None => None
  end.

(** One attempt of the pattern at the head of [s]: the quantifier {1,2} is
    greedy, so two digits are tried first and one digit on backtracking.
    The result is the matched text and what follows it. *)
Definition time_pattern_at (s : string) : option (string * string) :=
  let short :=
    match one_digit s with
    | Some (h, r) => after_hour h r
    | None => None
    end in
  match two_digits s with
  | Some (h, r) =>
      match after_hour h r with
      | Some m => Some m
      | None => short
      end
  | None => short
  end.

Definition inspect {A} (a : A) : {b : A | a = b} := exist _ a eq_refl.

(** The successive matches of a global search: after a match the search
    goes on behind it, after a failure one character further. *)
Equations? scan_times (s : string) : list string
  by wf (String.length s) lt :=
  scan_times "" := [];
  scan_times (String c r) with inspect (time_pattern_at (String c r)) => {
    | exist _ (Some (t, rest)) _ := t :: scan_times rest;
    | exist _ None _ := scan_times r }.
Proof.
  revert e.
  unfold time_pattern_at, after_hour, colon_minutes, two_digits, one_digit.
  destruct r as [|c1 [|c2 [|c3 [|c4 r5]]]]; cbn;
    repeat (match goal with
            | |- context [if ?b then _ else _] => destruct b
            end; cbn);
    intros H; try discriminate H; inversion H; subst; simpl; lia.
Qed.

(** [rawText.match(/([0-9]{1,2}:[0-9]{2})/g)]: [null] without a match. *)
Definition match_times (rawText : string) : option (list string) :=
  match scan_times rawText with
  | [] => None
  | ms => Some ms
  end.

Record TimeDelay : Type := mkTimeDelay {
  td_std : string;
  td_etd : string;
  td_delayMins : jsnum
}.

Definition parseTimeAndDelay (rawText : string) : TimeDelay :=
  match match_times rawText with
  | None | Some [] => mkTimeDelay "--:--" "--:--" (Int 0)
  | Some (std :: more) =>
      let etd := match more with e :: _ => e | [] => std end in
      let delayMins := calculateDelayMinutes std etd in
      mkTimeDelay std etd delayMins
  end.

(* ===================================================================== *)
(** ** AirlineResolver: getAirlineNameFromUrl *)
(* ===================================================================== *)

Notation "x <- e ;; k" := (bind e (fun x => k))
  (at level 61, e at next level, right associativity).

(** [v.split(sep)]: only a string has the method. *)
Definition method_split (sep : ascii) (v : option jsval) : result (list string) :=
  match v with
  | Some (JStr s) => Ok (split sep s)
  | Some (JUndefined | JNull) | None =>
      Throw "Cannot read properties of undefined (reading 'split')"
  | Some _ => Throw "split is not a function"
  end.

(** The body of the [try]. *)
Definition airline_name_try (url : jsval) : result string :=
  segments <- method_split "/" (Some url) ;;
  pieces <- method_split "." (option_map JStr (pop segments)) ;;
  let filename := option_map JStr (nth_error pieces 0) in
  parts <- method_split "_" filename ;;
  match nth_error parts 0 with
  | Some p0 =>
      let name := replace_hyphens p0 in
      Ok (if (name =? "")%string then "Other" else name)
  | None => Throw "Cannot read properties of undefined (reading 'replace')"
  end.

Definition getAirlineNameFromUrl (url : jsval) : string :=
  if negb (truthy url) then "Other"
  else try_catch (airline_name_try url) (fun e => "Other").

(* ===================================================================== *)
(** ** FlightTableParser: parseFlights *)
(* ===================================================================== *)

(** The tree that [cheerio.load] returns. *)
#[local] Set Warnings "-register-all".
Inductive node : Type :=
| Text (data : string)
| Comment (data : string)
| Element (name : string) (attribs : list (string * string))
          (children : list node).

Definition document : Type := list node.

Module Cheerio.

(** A selection is a sequence of nodes in document order. *)
Definition selection : Type := list node.

(** The elements called [name] in the subtree of [n], [n] included, in
    document order. *)
Fixpoint select (name : string) (n : node) : selection :=
  match n with
  | Element nm _ children =>
      ((if (nm =? name)%string then [n] else []) ++
       flat_map (select name) children)%list
  | _ => []
  end.

(** [$(name)] on the loaded document. *)
Definition select_all (name : string) (d : document) : selection :=
  flat_map (select name) d.

Definition children_of (n : node) : list node :=
  match n with Element _ _ children => children | _ => [] end.

(** [$(x)] for an element [x] of a selection, or for [undefined]. *)
Definition wrap (x : option node) : selection :=
  match x with Some n => [n] | None => [] end.

(** [sel.find(name)]: the descendants called [name].  The program calls it
    on selections of at most one element. *)
Definition find (name : string) (sel : selection) : selection :=
  flat_map (fun n => select_all name (children_of n)) sel.

(** [textContent]: the text nodes of the subtree, in order; comments have
    none. *)
Fixpoint textContent (n : node) : string :=
  match n with
  | Text data => data
  | Comment _ => ""
  | Element _ _ children =>
      (fix all (l : list node) : string :=
         match l with
         | [] => ""
         | c :: l' => textContent c ++ all l'
         end) children
  end.

(** [sel.text()] *)
Definition text (sel : selection) : string :=
  String.concat "" (map textContent sel).

Fixpoint lookup (name : string) (attribs : list (string * string))
  : option string :=
  match attribs with
  | [] => None
  | (k, v) :: rest => if (k =? name)%string then Some v else lookup name rest
  end.

(** [sel.attr(name)]: the attribute of the first element of the selection;
    [undefined] when the selection is empty or the attribute is missing. *)
Definition attr (name : string) (sel : selection) : option string :=
  match sel with
  | Element _ attribs _ :: _ => lookup name attribs
  | _ => None
  end.

End Cheerio.

Record FlightRecord : Type := mkFlight {
  airlineImg : option string;     (* undefined when the cell has no image *)
  airlineName : string;
  flightNo : string;
  dest : string;
  std : string;
  etd : string;
  delayMins : jsnum;
  gate : string;
  status : string
}.

Definition jsval_of (o : option string) : jsval :=
  match o with Some s => JStr s | None => JUndefined end.

(** The record that the callback builds from the cells of a row. *)
Definition flight_of (cols : Cheerio.selection) (destText : string)
  : FlightRecord :=
  let col k := Cheerio.wrap (nth_error cols k) in
  let airlineImg := Cheerio.attr "src" (Cheerio.find "img" (col 0%nat)) in
  let flightNo := trim (Cheerio.text (col 1%nat)) in
  let timeRaw := trim (Cheerio.text (col 4%nat)) in
  let gate := trim (Cheerio.text (col 5%nat)) in
  let status := trim (Cheerio.text (col 6%nat)) in
  let t := parseTimeAndDelay timeRaw in
  let airlineName := getAirlineNameFromUrl (jsval_of airlineImg) in
  mkFlight airlineImg airlineName flightNo destText
           (td_std t) (td_etd t) (td_delayMins t) gate status.

(** The callback of [$('tr').each]: [flights] is the array it pushes to. *)
Definition each_row (flights : list FlightRecord) (row : node)
  : list FlightRecord :=
  let cols := Cheerio.find "td" (Cheerio.wrap (Some row)) in
  if (List.length cols <? 7)%nat then flights
  else
    let destText := trim (Cheerio.text (Cheerio.wrap (nth_error cols 2))) in
    if includes "origin" (toLowerCase destText) then flights
    else (flights ++ [flight_of cols destText])%list.

Definition parseFlights (html : document) : list FlightRecord :=
  fold_left each_row (Cheerio.select_all "tr" html) [].

(* ===================================================================== *)
(** ** FreshnessCache and the handler of GET /api/departures *)
(* ===================================================================== *)

Record Cache : Type := mkCache {
  data : option (list FlightRecord);     (* null before the first refresh *)
  lastFetch : Z
}.

Definition initial_cache : Cache := mkCache None 0.

Definition CACHE_DURATION : Z := 15 * 60 * 1000.

(** [(now - cache.lastFetch) < CACHE_DURATION] *)
Definition isCacheFresh (cache : Cache) (now : Z) : bool :=
  now - lastFetch cache <? CACHE_DURATION.

(** [cache.data && isCacheFresh]: an array, empty or not, is truthy. *)
Definition serves_from_cache (cache : Cache) (now : Z) : bool :=
  match data cache with
  | Some _ => isCacheFresh cache now
  | None => false
  end.

(** [cache.data = flights; cache.lastFetch = Date.now()] *)
Definition update_cache (flights : list FlightRecord) (now : Z) (_ : Cache)
  : Cache :=
  mkCache (Some flights) now.

(** What the headless browser does when it is asked for the page. *)
Inductive Render : Type :=
| LaunchRejects (message : string)
    (* puppeteer.launch throws: [browser] stays null *)
| PageRejects (message : string)
    (* newPage, setUserAgent, goto or content throws *)
| Responds (ok : bool) (status_code : Z) (body : document).

Inductive Event : Type :=
| LaunchBrowser
| CloseBrowser.

Inductive Response : Type :=
| Json (flights : list FlightRecord)            (* res.json(...) *)
| Status500 (error details : string).           (* res.status(500).json(...) *)

Definition decimal (z : Z) : string := NilZero.string_of_int (Z.to_int z).

(** The body of the [try], up to the parsed flights. *)
Definition fetch_flights (r : Render) : result (list FlightRecord) :=
  match r with
  | LaunchRejects message => Throw message
  | PageRejects message => Throw message
  | Responds ok status_code body =>
      if negb ok
      then Throw ("Airport server responded with " ++ decimal status_code)
      else Ok (parseFlights body)
  end.

(** The browser calls of one refresh: [finally] closes the browser when
    [launch] returned one. *)
Definition session (r : Render) : list Event :=
  match r with
  | LaunchRejects _ => [LaunchBrowser]
  | _ => [LaunchBrowser; CloseBrowser]
  end.

Record Outcome : Type := mkOutcome {
  cache_after : Cache;
  response : Response;
  events : list Event
}.

(** The part of the handler behind the freshness test: [r] is what the
    browser does, [now'] the clock when the cache is written. *)
Definition refresh (cache : Cache) (r : Render) (now' : Z) : Outcome :=
  match fetch_flights r with
  | Ok flights =>
      mkOutcome (update_cache flights now' cache) (Json flights) (session r)
  | Throw message =>
      match data cache with
      | Some stale => mkOutcome cache (Json stale) (session r)
      | None =>
          mkOutcome cache (Status500 "Failed to fetch flight data" message)
                    (session r)
      end
  end.

(** The handler, for a request that no other request interleaves with. *)
Definition api_departures (cache : Cache) (now : Z) (r : Render) (now' : Z)
  : Outcome :=
  match data cache with
  | Some flights =>
      if isCacheFresh cache now then mkOutcome cache (Json flights) []
      else refresh cache r now'
  | None => refresh cache r now'
  end.

(** Requests in flight together: a request arrives and is answered from
    the cache or starts a refresh; a started refresh completes later,
    against the cache as it is then. *)
Inductive Action : Type :=
| Arrive (now : Z)
| Complete (r : Render) (now' : Z).

Record Server : Type := mkServer {
  cache_of : Cache;
  in_flight : nat
}.

Definition step (s : Server) (a : Action) : Server * option Response :=
  match a with
  | Arrive now =>
      match data (cache_of s) with
      | Some flights =>
          if isCacheFresh (cache_of s) now then (s, Some (Json flights))
          else (mkServer (cache_of s) (S (in_flight s)), None)
      | None => (mkServer (cache_of s) (S (in_flight s)), None)
      end
  | Complete r now' =>
      match in_flight s with
      | O => (s, None)
      | S n =>
          let o := refresh (cache_of s) r now' in
          (mkServer (cache_after o) n, Some (response o))
      end
  end.

Fixpoint run (s : Server) (l : list Action) : Server * list Response :=
  match l with
  | [] => (s, [])
  | a :: l' =>
      let '(s1, o) := step s a in
      let '(s2, rs) := run s1 l' in
      (s2, match o with Some r => r :: rs | None => rs end)
  end.

(* ===================================================================== *)
(** ** The statements of the specification, in its own words *)
(* ===================================================================== *)

Module Spec.

(** A one- or two-digit hour, a colon, a two-digit minute. *)
Definition is_time_token (t : string) : bool :=
  match t with
  | String a (String b (String c (String d ""))) =>
      isDigit a && Ascii.eqb b ":" && isDigit c && isDigit d
  | String a (String b (String c (String d (String e "")))) =>
      isDigit a && isDigit b && Ascii.eqb c ":" && isDigit d && isDigit e
  | _ => false
  end.

Definition digit (c : ascii) : Z := code c - 48.

(** Minutes since midnight of a time token. *)
Definition minutes_of (t : string) : Z :=
  match t with
  | String a (String _ (String c (String d ""))) =>
      60 * digit a + (10 * digit c + digit d)
  | String a (String b (String _ (String d (String e "")))) =>
      60 * (10 * digit a + digit b) + (10 * digit d + digit e)
  | _ => 0
  end.

(** An estimate more than 12 hours before the schedule is a time of the
    next day; the delay is never negative. *)
Definition delay_between (scheduled estimated : Z) : Z :=
  let estimated :=
    if estimated <? scheduled - 12 * 60 then estimated + 24 * 60
    else estimated in
  Z.max 0 (estimated - scheduled).

(** The matches of the time pattern in a text, in order of appearance:
    from the left, a position where a time token starts yields that token
    and the search goes on behind it; any other position is passed over. *)
Inductive Matches : string -> list string -> Prop :=
| matches_end : Matches "" []
| matches_pass c s ms :
    (forall t r, is_time_token t = true -> String c s <> t ++ r) ->
    Matches s ms ->
    Matches (String c s) ms
| matches_take t r ms :
    is_time_token t = true ->
    Matches r ms ->
    Matches (t ++ r) (t :: ms).

(** Does the character occur in the string? *)
Fixpoint occurs (c : ascii) (s : string) : bool :=
  match s with
  | "" => false
  | String x r => Ascii.eqb x c || occurs c r
  end.

(** The text behind the last occurrence of [sep]; all of it without one. *)
Fixpoint after_last (sep : ascii) (s : string) : string :=
  match s with
  | "" => ""
  | String c r =>
      if occurs sep r then after_last sep r
      else if Ascii.eqb c sep then r else s
  end.

(** The text before the first occurrence of [sep]; all of it without one. *)
Fixpoint before_first (sep : ascii) (s : string) : string :=
  match s with
  | "" => ""
  | String c r => if Ascii.eqb c sep then "" else String c (before_first sep r)
  end.

(** A file name without its extension: the last dot and what follows it
    are removed. *)
Fixpoint strip_extension (s : string) : string :=
  match s with
  | "" => ""
  | String c r =>
      if Ascii.eqb c "." && negb (occurs "." r) then ""
      else String c (strip_extension r)
  end.

Definition sentinel : string := "Other".

(** Why the browser did not deliver the page, if it did not. *)
Definition failure_reason (r : Render) : option string :=
  match r with
  | LaunchRejects message | PageRejects message => Some message
  | Responds false status_code _ =>
      Some ("Airport server responded with " ++ decimal status_code)
  | Responds true _ _ => None
  end.

(** Records are present and younger than the window. *)
Definition isFresh (cache : Cache) (now windowMs : Z) : Prop :=
  data cache <> None /\ now - lastFetch cache < windowMs.

Definition or_sentinel (name : string) : string :=
  if (name =? "")%string then sentinel else name.

(** The airline name as the specification derives it: final path segment,
    extension stripped, piece before the first underscore, hyphens to
    spaces. *)
Definition resolveAirlineName (imageRef : jsval) : string :=
  match imageRef with
  | JStr "" => sentinel
  | JStr s =>
      or_sentinel
        (replace_hyphens
           (before_first "_" (strip_extension (after_last "/" s))))
  | _ => sentinel
  end.

(** The same with the piece before the first dot of the final segment in
    place of the segment without its extension. *)
Definition resolveAirlineName_first_dot (imageRef : jsval) : string :=
  match imageRef with
  | JStr "" => sentinel
  | JStr s =>
      or_sentinel
        (replace_hyphens
           (before_first "_" (before_first "." (after_last "/" s))))
  | _ => sentinel
  end.

(** Does the string hold a decimal digit? *)
Fixpoint has_digit (s : string) : bool :=
  match s with
  | "" => false
  | String c r => isDigit c || has_digit r
  end.

(** The characters that the name of an airline never holds. *)
Definition separators : list ascii := ["/"; "."; "_"; "-"]%char.

(** The name as a function of the final segment alone. *)
Definition name_of_segment (segment : string) : string :=
  or_sentinel
    (replace_hyphens (before_first "_" (before_first "." segment))).

Fixpoint last_char (s : string) : option ascii :=
  match s with
  | "" => None
  | String c "" => Some c
  | String _ r => last_char r
  end.

(** Does the text begin or end with white space? *)
Definition space_at_an_end (s : string) : bool :=
  match s with
  | "" => false
  | String c _ =>
      isSpace c ||
      match last_char s with Some l => isSpace l | None => false end
  end.

(** The cells that the program counts for a row, [$(row).find('td')]:
    every [td] below the row, at any depth. *)
Definition cells (row : node) : list node :=
  Cheerio.find "td" (Cheerio.wrap (Some row)).

(** Is this the text of the destination cell of a header row? *)
Definition is_header_text (destination : string) : bool :=
  includes "origin" (toLowerCase (trim destination)).

(** The record of a row, from its cells 0, 1, 2, 4, 5 and 6. *)
Definition record_of (c0 c1 c2 c4 c5 c6 : node) : FlightRecord :=
  let img := Cheerio.attr "src" (Cheerio.find "img" [c0]) in
  let t := parseTimeAndDelay (trim (Cheerio.textContent c4)) in
  mkFlight img
           (getAirlineNameFromUrl (jsval_of img))
           (trim (Cheerio.textContent c1))
           (trim (Cheerio.textContent c2))
           (td_std t) (td_etd t) (td_delayMins t)
           (trim (Cheerio.textContent c5))
           (trim (Cheerio.textContent c6)).

(** The record that the program pushes for a row, with the cells as it
    counts them: none with fewer than 7 of them, or with a header text in
    the third. *)
Definition row_record (row : node) : option FlightRecord :=
  match cells row with
  | c0 :: c1 :: c2 :: _ :: c4 :: c5 :: c6 :: _ =>
      if is_header_text (Cheerio.textContent c2) then None
      else Some (record_of c0 c1 c2 c4 c5 c6)
  | _ => None
  end.

Definition option_list {A} (o : option A) : list A :=
  match o with Some a => [a] | None => [] end.

(** The records of a sequence of rows, in the order of the rows. *)
Definition records_of (rows : list node) : list FlightRecord :=
  flat_map (fun row => option_list (row_record row)) rows.

(** The data cells of a row, as the specification counts and numbers them:
    the [td] elements that are children of the row.  The cells of a table
    inside one of them are cells of the rows of that table, not of this
    row. *)
Definition is_td (n : node) : bool :=
  match n with
  | Element name _ _ => (name =? "td")%string
  | _ => false
  end.

Definition own_cells (row : node) : list node :=
  filter is_td (Cheerio.children_of row).

(** The record of a row by the specification: a row with fewer than 7 data
    cells, or with a header text in its destination cell, has none; the
    others map their cells 0, 1, 2, 4, 5 and 6. *)
Definition expected_record (row : node) : option FlightRecord :=
  match own_cells row with
  | c0 :: c1 :: c2 :: _ :: c4 :: c5 :: c6 :: _ =>
      if is_header_text (Cheerio.textContent c2) then None
      else Some (record_of c0 c1 c2 c4 c5 c6)
  | _ => None
  end.

(** The records of a document by the specification: those of its rows, in
    document order. *)
Definition expected_records (html : document) : list FlightRecord :=
  flat_map (fun row => option_list (expected_record row))
           (Cheerio.select_all "tr" html).

End Spec.

(** A small departures table: a header row, a flight, a row that is too
    short, and a flight without an image or a time. *)
Module Sample.

Definition td (children : list node) : node := Element "td" [] children.
Definition tr (children : list node) : node := Element "tr" [] children.

Definition header : node :=
  tr [td [Text "Airline"]; td [Text "Flight"];
      td [Text " Origin/Destination "]; td [Text "Via"]; td [Text "Time"];
      td [Text "Gate"]; td [Text "Status"]].

Definition flight_row : node :=
  tr [td [Element "img" [("alt", "IndiGo"); ("src", "/img/indigo_logo.png")] []];
      td [Text " 6E 123 "]; td [Element "b" [] [Text "Delhi"]];
      td [Text "-"]; td [Text "23:50 00:10"]; td [Text "21"];
      td [Text "Boarding"]].

Definition short_row : node := tr [td [Text "Last updated 06:00"]].

Definition bare_row : node :=
  tr [td []; td [Text "AI 560"]; td [Text "Chennai"]; td []; td [Text "tba"];
      td []; td []].

Definition html : document :=
  [Element "html" []
     [Element "body" []
        [Element "table" [] [flight_row; header; short_row; bare_row]]]].

Definition flight : FlightRecord :=
  mkFlight (Some "/img/indigo_logo.png") "indigo" "6E 123" "Delhi"
           "23:50" "00:10" (Int 20) "21" "Boarding".

Definition bare_flight : FlightRecord :=
  mkFlight None "Other" "AI 560" "Chennai" "--:--" "--:--" (Int 0) "" "".

(** A row whose only cell holds a table with the flight row. *)
Definition outer_row : node :=
  tr [td [Element "table" [] [flight_row]]].

(** A flight row with 7 cells; its destination cell holds a small table
    with the terminal. *)
Definition annotated_row : node :=
  tr [td [Element "img" [("src", "/img/vistara_logo.png")] []];
      td [Text "UK 870"];
      td [Text "Mumbai ";
          Element "table" []
            [Element "tbody" [] [tr [td [Text "T2"]; td [Text "Intl"]]]]];
      td [Text "-"]; td [Text "10:00 10:30"]; td [Text "G5"];
      td [Text "On time"]].

(** A cache written at 08:00:00.000 of some day, in milliseconds. *)
Definition t0 : Z := 28800000.
Definition cache : Cache := mkCache (Some [flight; bare_flight]) t0.

End Sample.

(* ===================================================================== *)
(** ** TimeDelay: proofs *)
(* ===================================================================== *)

Lemma isDigit_not_colon c : isDigit c = true -> Ascii.eqb c ":" = false.
Proof.
  unfold isDigit. intros H.
  destruct (Ascii.eqb_spec c ":") as [->|]; [discriminate H | reflexivity].
Qed.

Lemma isDigit_digit c : isDigit c = true -> 0 <= Spec.digit c <= 9.
Proof. unfold isDigit, Spec.digit. lia. Qed.

(** The shape of a time token. *)
Lemma is_time_token_inv t :
  Spec.is_time_token t = true ->
  (exists a c d,
      t = String a (String ":" (String c (String d ""))) /\
      isDigit a = true /\ isDigit c = true /\ isDigit d = true) \/
  (exists a b d e,
      t = String a (String b (String ":" (String d (String e "")))) /\
      isDigit a = true /\ isDigit b = true /\
      isDigit d = true /\ isDigit e = true).
Proof.
  destruct t as [|a [|b [|c [|d [|e [|f t]]]]]]; simpl; try discriminate.
  - intros H.
    apply andb_prop in H; destruct H as [H Hd].
    apply andb_prop in H; destruct H as [H Hc].
    apply andb_prop in H; destruct H as [Ha Hb].
    apply Ascii.eqb_eq in Hb; subst b.
    left. exists a, c, d. auto.
  - intros H.
    apply andb_prop in H; destruct H as [H He].
    apply andb_prop in H; destruct H as [H Hd].
    apply andb_prop in H; destruct H as [H Hc].
    apply andb_prop in H; destruct H as [Ha Hb].
    apply Ascii.eqb_eq in Hc; subst c.
    right. exists a, b, d, e. auto.
Qed.

(** Splitting a time token at the colon and reading both pieces as numbers
    gives its hour and its minute. *)
Lemma hours_minutes_token t :
  Spec.is_time_token t = true ->
  exists h m,
    hours_minutes t = (Int h, Int m) /\
    0 <= h /\ 0 <= m /\ 60 * h + m = Spec.minutes_of t.
Proof.
  intros H. pose proof isDigit_digit as D.
  destruct (is_time_token_inv t H)
    as [(a & c & d & -> & Ha & Hc & Hd)
       | (a & b & d & e & -> & Ha & Hb & Hd & He)];
    unfold hours_minutes, Number; cbn [split].
  - rewrite (isDigit_not_colon a Ha), (isDigit_not_colon c Hc),
      (isDigit_not_colon d Hd), Ascii.eqb_refl.
    cbn [split map digits_value]. rewrite Ha, Hc, Hd.
    eexists _, _; split; [reflexivity|].
    pose proof (D a Ha). pose proof (D c Hc). pose proof (D d Hd).
    unfold Spec.minutes_of, Spec.digit in *. lia.
  - rewrite (isDigit_not_colon a Ha), (isDigit_not_colon b Hb),
      (isDigit_not_colon d Hd), (isDigit_not_colon e He), Ascii.eqb_refl.
    cbn [split map digits_value]. rewrite Ha, Hb, Hd, He.
    eexists _, _; split; [reflexivity|].
    pose proof (D a Ha). pose proof (D b Hb). pose proof (D d Hd).
    pose proof (D e He).
    unfold Spec.minutes_of, Spec.digit in *. lia.
Qed.

(** On time tokens the delay is the one of the specification, computed on
    the minutes since midnight. *)
Lemma calculateDelayMinutes_tokens std etd :
  Spec.is_time_token std = true ->
  Spec.is_time_token etd = true ->
  calculateDelayMinutes std etd =
  Int (Spec.delay_between (Spec.minutes_of std) (Spec.minutes_of etd)).
Proof.
  intros Hs He. unfold calculateDelayMinutes, Spec.delay_between.
  destruct (String.eqb_spec std etd) as [->|_].
  - f_equal. destruct (Z.ltb_spec (Spec.minutes_of etd)
                         (Spec.minutes_of etd - 12 * 60)); lia.
  - destruct (hours_minutes_token std Hs) as (h1 & m1 & -> & _ & _ & <-).
    destruct (hours_minutes_token etd He) as (h2 & m2 & -> & _ & _ & <-).
    cbn [js_add js_mul js_sub js_lt].
    replace (h2 * 60 + m2) with (60 * h2 + m2) by lia.
    replace (h1 * 60 + m1) with (60 * h1 + m1) by lia.
    destruct (60 * h2 + m2 <? 60 * h1 + m1 - 12 * 60); reflexivity.
Qed.

Lemma calculateDelayMinutes_same s : calculateDelayMinutes s s = Int 0.
Proof. unfold calculateDelayMinutes. rewrite String.eqb_refl. reflexivity. Qed.

(** C2. For two time tokens, [calculateDelayMinutes] is the difference of
    their minutes since midnight, where an estimate more than 12 hours
    before the schedule first gains 24 hours, and a negative difference
    counts as zero.  Equal inputs give 0.  When the estimate is not before
    the schedule the delay is their plain difference, and 23:50 against
    00:10 is 20 minutes. *)
Theorem calculateDelayMinutes_spec std etd :
  Spec.is_time_token std = true ->
  Spec.is_time_token etd = true ->
  let a := Spec.minutes_of std in
  let b := Spec.minutes_of etd in
  calculateDelayMinutes std etd =
    Int (Z.max 0 ((if b <? a - 12 * 60 then b + 24 * 60 else b) - a)) /\
  (std = etd -> calculateDelayMinutes std etd = Int 0) /\
  (a <= b -> calculateDelayMinutes std etd = Int (b - a)) /\
  calculateDelayMinutes "23:50" "00:10" = Int 20.
Proof.
  intros Hs He a b. subst a b.
  pose proof (calculateDelayMinutes_tokens std etd Hs He) as E.
  unfold Spec.delay_between in E.
  split; [exact E|]. split; [|split].
  - intros ->. apply calculateDelayMinutes_same.
  - intros Hle. rewrite E. f_equal.
    destruct (Z.ltb_spec (Spec.minutes_of etd) (Spec.minutes_of std - 12 * 60));
      lia.
  - reflexivity.
Qed.

Lemma calculateDelayMinutes_spec_witness :
  calculateDelayMinutes "09:15" "9:55" = Int 40.
Proof.
  exact (proj1 (proj2 (proj2
    (calculateDelayMinutes_spec "09:15" "9:55" eq_refl eq_refl))) ltac:(vm_compute; discriminate)).
Defined.

(** *** The matches of the pattern *)

Ltac split_ifs :=
  repeat match goal with
         | |- context [if ?b then _ else _] => destruct b eqn:?
         end.

Lemma time_pattern_at_sound s t r :
  time_pattern_at s = Some (t, r) ->
  Spec.is_time_token t = true /\ s = t ++ r.
Proof.
  unfold time_pattern_at, after_hour, colon_minutes, two_digits, one_digit.
  destruct s as [|c0 [|c1 [|c2 [|c3 [|c4 r5]]]]]; cbn; split_ifs;
    intros H; try discriminate H; inversion H; subst; cbn;
    repeat match goal with
           | E : Ascii.eqb _ _ = true |- _ => apply Ascii.eqb_eq in E; subst
           | E : _ && _ = true |- _ => apply andb_prop in E; destruct E
           end;
    repeat match goal with E : isDigit _ = true |- _ => rewrite E; clear E end;
    auto.
Qed.

Lemma time_pattern_at_complete t r :
  Spec.is_time_token t = true ->
  time_pattern_at (t ++ r) = Some (t, r).
Proof.
  intros H.
  destruct (is_time_token_inv t H)
    as [(a & c & d & -> & Ha & Hc & Hd)
       | (a & b & d & e & -> & Ha & Hb & Hd & He)];
    unfold time_pattern_at, after_hour, colon_minutes, two_digits, one_digit;
    cbn [append].
  - do 3 (rewrite ?Ha, ?Hc, ?Hd; cbn -[isDigit]). reflexivity.
  - do 3 (rewrite ?Ha, ?Hb, ?Hd, ?He; cbn -[isDigit]). reflexivity.
Qed.

Lemma scan_times_cons c r :
  scan_times (String c r) =
  match time_pattern_at (String c r) with
  | Some (t, rest) => t :: scan_times rest
  | None => scan_times r
  end.
Proof.
  simp scan_times.
  set (i := inspect (time_pattern_at (String c r))). clearbody i.
  destruct i as [[[t rest]|] e]; cbn; rewrite e; reflexivity.
Qed.

Lemma length_app (s1 s2 : string) :
  String.length (s1 ++ s2) = (String.length s1 + String.length s2)%nat.
Proof. induction s1 as [|c s1 IH]; simpl; [|rewrite IH]; reflexivity. Qed.

Lemma token_not_empty t r : Spec.is_time_token t = true -> t ++ r <> "".
Proof. destruct t; [discriminate | intros _; discriminate]. Qed.

Lemma scan_times_token t r :
  Spec.is_time_token t = true ->
  scan_times (t ++ r) = t :: scan_times r.
Proof.
  intros H. pose proof (time_pattern_at_complete t r H) as E.
  destruct (t ++ r) as [|c s] eqn:Es.
  - exfalso. exact (token_not_empty t r H Es).
  - rewrite scan_times_cons, E. reflexivity.
Qed.

(** The scan finds the matches of the specification... *)
Lemma scan_times_Matches s : Spec.Matches s (scan_times s).
Proof.
  remember (String.length s) as n eqn:En. revert s En.
  induction n as [n IH] using lt_wf_ind. intros s ->.
  destruct s as [|c r]; [simp scan_times; constructor|].
  rewrite scan_times_cons.
  destruct (time_pattern_at (String c r)) as [[t rest]|] eqn:E.
  - destruct (time_pattern_at_sound _ _ _ E) as [Ht Hs]. rewrite Hs.
    apply Spec.matches_take; [exact Ht|].
    apply (IH (String.length rest)); [|reflexivity].
    rewrite Hs, length_app.
    destruct t; [discriminate Ht | simpl; lia].
  - apply Spec.matches_pass.
    + intros t r' Ht Hs. rewrite Hs, (time_pattern_at_complete t r' Ht) in E.
      discriminate E.
    + apply (IH (String.length r)); [simpl; lia | reflexivity].
Qed.

(** ... and nothing else is a sequence of matches of that text. *)
Lemma Matches_scan_times s ms : Spec.Matches s ms -> ms = scan_times s.
Proof.
  induction 1 as [|c s ms Hno _ IH|t r ms Ht _ IH].
  - simp scan_times. reflexivity.
  - rewrite scan_times_cons.
    destruct (time_pattern_at (String c s)) as [[t rest]|] eqn:E; [|exact IH].
    destruct (time_pattern_at_sound _ _ _ E) as [Ht Hs].
    exfalso. exact (Hno t rest Ht Hs).
  - rewrite (scan_times_token t r Ht), IH. reflexivity.
Qed.

(** C3. [parseTimeAndDelay] works on the matches of the time pattern in
    its input, taken in order of appearance (there is one such sequence):
    without a match it returns ("--:--", "--:--", 0); with one match m,
    scheduled and estimated are m and the delay is 0; with two or more,
    scheduled is the first match and estimated the second, whatever
    follows. *)
Theorem parseTimeAndDelay_spec rawText :
  exists ms,
    Spec.Matches rawText ms /\
    (forall ms', Spec.Matches rawText ms' -> ms' = ms) /\
    match ms with
    | [] => parseTimeAndDelay rawText = mkTimeDelay "--:--" "--:--" (Int 0)
    | [m] => parseTimeAndDelay rawText = mkTimeDelay m m (Int 0)
    | first :: second :: _ =>
        parseTimeAndDelay rawText =
        mkTimeDelay first second (calculateDelayMinutes first second)
    end.
Proof.
  exists (scan_times rawText). split; [apply scan_times_Matches|].
  split; [intros ms'; apply Matches_scan_times|].
  unfold parseTimeAndDelay, match_times.
  destruct (scan_times rawText) as [|m [|m' more]]; try reflexivity.
  rewrite calculateDelayMinutes_same. reflexivity.
Qed.

Example scan_times_two : scan_times "06:05 - 6:45 (x)" = ["06:05"; "6:45"].
Proof. reflexivity. Qed.

Example scan_times_backtracks : scan_times "123:456:78" = ["23:45"; "6:78"].
Proof. reflexivity. Qed.

Example parseTimeAndDelay_three :
  parseTimeAndDelay "22:10 / 23:05 / 23:59" = mkTimeDelay "22:10" "23:05" (Int 55).
Proof. reflexivity. Qed.

Example calculateDelayMinutes_early :
  calculateDelayMinutes "10:30" "10:05" = Int 0.
Proof. reflexivity. Qed.

(* ===================================================================== *)
(** ** AirlineResolver: proofs *)
(* ===================================================================== *)

Lemma split_no_sep sep s : Spec.occurs sep s = false -> split sep s = [s].
Proof.
  induction s as [|c r IH]; simpl; [reflexivity|].
  intros H. apply orb_false_elim in H. destruct H as [Hc Hr].
  rewrite Hc, (IH Hr). reflexivity.
Qed.

Lemma split_with_sep sep s :
  Spec.occurs sep s = true -> exists p q ps, split sep s = p :: q :: ps.
Proof.
  induction s as [|c r IH]; simpl; [discriminate|].
  destruct (Ascii.eqb c sep); simpl.
  - intros _. destruct (Spec.occurs sep r) eqn:E.
    + destruct (IH eq_refl) as (p & q & ps & ->). eauto.
    + rewrite (split_no_sep _ _ E). eauto.
  - intros H. destruct (IH H) as (p & q & ps & ->). eauto.
Qed.

Lemma pop_cons2 {A} (x y : A) l : pop (x :: y :: l) = pop (y :: l).
Proof. reflexivity. Qed.

(** The last piece of [s.split(sep)] is the text behind the last [sep]. *)
Lemma pop_split sep s : pop (split sep s) = Some (Spec.after_last sep s).
Proof.
  induction s as [|c r IH]; [reflexivity|].
  cbn [split Spec.after_last].
  destruct (Spec.occurs sep r) eqn:E.
  - destruct (split_with_sep _ _ E) as (p & q & ps & Hs).
    rewrite Hs in *. destruct (Ascii.eqb c sep); rewrite !pop_cons2;
      rewrite <- IH; reflexivity.
  - rewrite (split_no_sep _ _ E). destruct (Ascii.eqb c sep); reflexivity.
Qed.

(** The first piece of [s.split(sep)] is the text before the first [sep]. *)
Lemma first_split sep s :
  nth_error (split sep s) 0 = Some (Spec.before_first sep s).
Proof.
  induction s as [|c r IH]; [reflexivity|].
  cbn [split Spec.before_first].
  destruct (Ascii.eqb c sep); [reflexivity|].
  destruct (split sep r) as [|p ps]; [discriminate IH|].
  simpl in *. congruence.
Qed.

Lemma getAirlineNameFromUrl_string c r :
  getAirlineNameFromUrl (JStr (String c r)) =
  Spec.or_sentinel
    (replace_hyphens
       (Spec.before_first "_"
          (Spec.before_first "." (Spec.after_last "/" (String c r))))).
Proof.
  unfold getAirlineNameFromUrl, airline_name_try.
  cbn [truthy String.eqb negb method_split bind].
  rewrite pop_split. cbn [option_map method_split bind].
  rewrite first_split. cbn [option_map method_split bind].
  rewrite first_split. reflexivity.
Qed.

Lemma getAirlineNameFromUrl_first_dot url :
  getAirlineNameFromUrl url = Spec.resolveAirlineName_first_dot url.
Proof.
  destruct url as [| |[|]|[|z]|[|c r]]; try reflexivity.
  - unfold getAirlineNameFromUrl. cbn. destruct (z =? 0); reflexivity.
  - apply getAirlineNameFromUrl_string.
Qed.

Lemma or_sentinel_not_empty name : Spec.or_sentinel name <> "".
Proof.
  unfold Spec.or_sentinel.
  destruct (String.eqb_spec name ""); [discriminate | assumption].
Qed.

Lemma airlineName_not_empty url : getAirlineNameFromUrl url <> "".
Proof.
  rewrite getAirlineNameFromUrl_first_dot.
  destruct url as [| | | |[|c r]]; try discriminate.
  apply or_sentinel_not_empty.
Qed.

(** C4, as the specification states it, fails on a file name with two
    dots: the program keeps what stands before the first dot, the
    specification what stands before the extension. *)
Lemma resolveAirlineName_extension_differs :
  getAirlineNameFromUrl (JStr "logos/air.india_logo.png") = "air" /\
  Spec.resolveAirlineName (JStr "logos/air.india_logo.png") = "air.india" /\
  getAirlineNameFromUrl (JStr "logos/air.india_logo.png") <>
  Spec.resolveAirlineName (JStr "logos/air.india_logo.png").
Proof. repeat split. vm_compute. discriminate. Qed.

Lemma occurs_app_sep sep a b : Spec.occurs sep (a ++ String sep b) = true.
Proof.
  induction a as [|c a IH]; simpl.
  - rewrite Ascii.eqb_refl. reflexivity.
  - rewrite IH. apply orb_true_r.
Qed.

Lemma after_last_app sep a b :
  Spec.occurs sep b = false ->
  Spec.after_last sep (a ++ String sep b) = b.
Proof.
  intros Hb. induction a as [|c a IH]; simpl.
  - rewrite Hb, Ascii.eqb_refl. reflexivity.
  - rewrite occurs_app_sep. exact IH.
Qed.

(** Both readings agree on a final segment with at most one dot. *)
Lemma strip_extension_one_dot s :
  Spec.occurs "." (Spec.strip_extension s) = false ->
  Spec.strip_extension s = Spec.before_first "." s.
Proof.
  induction s as [|c r IH]; simpl; [reflexivity|].
  destruct (Ascii.eqb c ".") eqn:Ec; simpl.
  - destruct (Spec.occurs "." r); simpl; [|reflexivity].
    rewrite Ec. discriminate.
  - rewrite Ec. simpl. intros H. rewrite (IH H). reflexivity.
Qed.

(** C4, amended. [getAirlineNameFromUrl] returns the sentinel "Other" on an
    absent input, on the empty string and on an input that is not a string;
    otherwise it takes the final path segment, keeps what stands before its
    first dot, of that the piece before the first underscore, replaces
    hyphens with spaces, and falls back to the sentinel when nothing is
    left.  Absent and "" give the sentinel, ".../indigo_logo.png" gives
    "indigo" and ".../air-india_logo.png" gives "air india". *)
Theorem getAirlineNameFromUrl_spec :
  (forall url,
      getAirlineNameFromUrl url = Spec.resolveAirlineName_first_dot url) /\
  getAirlineNameFromUrl JUndefined = Spec.sentinel /\
  getAirlineNameFromUrl (JStr "") = Spec.sentinel /\
  (forall dir,
      getAirlineNameFromUrl (JStr (dir ++ "/indigo_logo.png")) = "indigo" /\
      getAirlineNameFromUrl (JStr (dir ++ "/air-india_logo.png"))
      = "air india").
Proof.
  split; [exact getAirlineNameFromUrl_first_dot|].
  split; [reflexivity|]. split; [reflexivity|].
  intros dir. rewrite !getAirlineNameFromUrl_first_dot.
  unfold Spec.resolveAirlineName_first_dot.
  split.
  - destruct (dir ++ "/indigo_logo.png") as [|c r] eqn:E.
    + destruct dir; discriminate E.
    + rewrite <- E, (after_last_app "/" dir "indigo_logo.png" eq_refl).
      reflexivity.
  - destruct (dir ++ "/air-india_logo.png") as [|c r] eqn:E.
    + destruct dir; discriminate E.
    + rewrite <- E, (after_last_app "/" dir "air-india_logo.png" eq_refl).
      reflexivity.
Qed.

(* ===================================================================== *)
(** ** FlightTableParser: proofs *)
(* ===================================================================== *)

Lemma records_of_cons row rows :
  Spec.records_of (row :: rows) =
  (Spec.option_list (Spec.row_record row) ++ Spec.records_of rows)%list.
Proof. reflexivity. Qed.

(** One call of the callback pushes the record of the row, if it has one. *)
Lemma each_row_record flights row :
  each_row flights row =
  (flights ++ Spec.option_list (Spec.row_record row))%list.
Proof.
  unfold each_row, Spec.row_record, Spec.cells.
  destruct (Cheerio.find "td" (Cheerio.wrap (Some row)))
    as [|c0 [|c1 [|c2 [|c3 [|c4 [|c5 [|c6 rest]]]]]]];
    try (cbn; rewrite app_nil_r; reflexivity).
  cbn [List.length Nat.ltb Nat.leb nth_error Cheerio.wrap Cheerio.text map
       String.concat].
  unfold Spec.is_header_text.
  destruct (includes "origin" (toLowerCase (trim (Cheerio.textContent c2)))).
  - cbn. rewrite app_nil_r. reflexivity.
  - reflexivity.
Qed.

Lemma fold_each_row rows flights :
  fold_left each_row rows flights = (flights ++ Spec.records_of rows)%list.
Proof.
  revert flights. induction rows as [|row rows IH]; intros flights.
  - cbn. rewrite app_nil_r. reflexivity.
  - cbn [fold_left]. rewrite IH, each_row_record, records_of_cons, app_assoc.
    reflexivity.
Qed.

Lemma parseFlights_records html :
  parseFlights html = Spec.records_of (Cheerio.select_all "tr" html).
Proof. unfold parseFlights. rewrite fold_each_row. reflexivity. Qed.

Lemma row_record_cells row r :
  Spec.row_record row = Some r ->
  exists c0 c1 c2 c3 c4 c5 c6 rest,
    Spec.cells row = c0 :: c1 :: c2 :: c3 :: c4 :: c5 :: c6 :: rest /\
    Spec.is_header_text (Cheerio.textContent c2) = false /\
    r = Spec.record_of c0 c1 c2 c4 c5 c6.
Proof.
  unfold Spec.row_record.
  destruct (Spec.cells row)
    as [|c0 [|c1 [|c2 [|c3 [|c4 [|c5 [|c6 rest]]]]]]]; try discriminate.
  destruct (Spec.is_header_text (Cheerio.textContent c2)) eqn:E;
    [discriminate|].
  intros [= <-]. exists c0, c1, c2, c3, c4, c5, c6, rest. auto.
Qed.

Lemma in_records_of r rows :
  In r (Spec.records_of rows) <->
  exists row, In row rows /\ Spec.row_record row = Some r.
Proof.
  unfold Spec.records_of. rewrite in_flat_map. split.
  - intros (row & Hin & Hr). exists row. split; [exact Hin|].
    destruct (Spec.row_record row) as [r'|]; [|contradiction].
    destruct Hr as [->|[]]. reflexivity.
  - intros (row & Hin & Hr). exists row. split; [exact Hin|].
    rewrite Hr. left. reflexivity.
Qed.

(** The program in terms of the cells it counts ([Spec.cells], every [td]
    below a row): its records are those of the [tr] elements of the
    document, in document order, one for each row with at least 7 counted
    cells whose third counted cell, trimmed and in lower case, does not
    contain "origin"; the fields come from the counted cells 0, 1, 2, 4, 5
    and 6. *)
Lemma parseFlights_with_counted_cells html :
  parseFlights html = Spec.records_of (Cheerio.select_all "tr" html) /\
  (forall row,
      Spec.row_record row <> None <->
      (7 <= List.length (Spec.cells row))%nat /\
      includes "origin"
        (toLowerCase
           (trim (Cheerio.text
                    (Cheerio.wrap (nth_error (Spec.cells row) 2))))) = false) /\
  (forall row c0 c1 c2 c3 c4 c5 c6 rest,
      Spec.cells row = c0 :: c1 :: c2 :: c3 :: c4 :: c5 :: c6 :: rest ->
      includes "origin" (toLowerCase (trim (Cheerio.textContent c2))) = false ->
      exists r,
        Spec.row_record row = Some r /\
        airlineImg r = Cheerio.attr "src" (Cheerio.find "img" [c0]) /\
        airlineName r = getAirlineNameFromUrl (jsval_of (airlineImg r)) /\
        flightNo r = trim (Cheerio.textContent c1) /\
        dest r = trim (Cheerio.textContent c2) /\
        mkTimeDelay (std r) (etd r) (delayMins r) =
          parseTimeAndDelay (trim (Cheerio.textContent c4)) /\
        gate r = trim (Cheerio.textContent c5) /\
        status r = trim (Cheerio.textContent c6)).
Proof.
  split; [apply parseFlights_records|]. split.
  - intros row. unfold Spec.row_record.
    destruct (Spec.cells row)
      as [|c0 [|c1 [|c2 [|c3 [|c4 [|c5 [|c6 rest]]]]]]];
      try (split; [intros H; exfalso; apply H; reflexivity
                  | intros [H _]; simpl in H; lia]).
    cbn [nth_error Cheerio.wrap Cheerio.text map String.concat List.length].
    unfold Spec.is_header_text.
    destruct (includes "origin" (toLowerCase (trim (Cheerio.textContent c2)))).
    + split; [intros H; exfalso; apply H; reflexivity
             | intros [_ H]; discriminate H].
    + split; [intros _; split; [lia | reflexivity] | intros _; discriminate].
  - intros row c0 c1 c2 c3 c4 c5 c6 rest Hc Ho.
    unfold Spec.row_record, Spec.is_header_text. rewrite Hc, Ho.
    eexists. split; [reflexivity|]. cbn.
    destruct (parseTimeAndDelay (trim (Cheerio.textContent c4))).
    repeat split.
Qed.

Example parseFlights_sample :
  parseFlights Sample.html = [Sample.flight; Sample.bare_flight].
Proof. vm_compute. reflexivity. Qed.

(** *** Invariants of the records *)

Lemma Matches_tokens s ms :
  Spec.Matches s ms -> Forall (fun t => Spec.is_time_token t = true) ms.
Proof. induction 1; auto. Qed.

Lemma delay_between_nonneg a b : 0 <= Spec.delay_between a b.
Proof. unfold Spec.delay_between. lia. Qed.

Lemma parseTimeAndDelay_delay rawText :
  exists d, td_delayMins (parseTimeAndDelay rawText) = Int d /\ 0 <= d.
Proof.
  pose proof (Matches_tokens _ _ (scan_times_Matches rawText)) as T.
  unfold parseTimeAndDelay, match_times.
  destruct (scan_times rawText) as [|m [|m' more]]; cbn.
  - exists 0. split; [reflexivity | lia].
  - exists 0. rewrite calculateDelayMinutes_same. split; [reflexivity | lia].
  - inversion T as [|? ? Hm T']; subst. inversion T' as [|? ? Hm' _]; subst.
    rewrite (calculateDelayMinutes_tokens m m' Hm Hm').
    eexists. split; [reflexivity | apply delay_between_nonneg].
Qed.

Lemma parseTimeAndDelay_no_match rawText :
  match_times rawText = None ->
  parseTimeAndDelay rawText = mkTimeDelay "--:--" "--:--" (Int 0).
Proof. unfold parseTimeAndDelay. intros ->. reflexivity. Qed.

(** A match is never the sentinel, so a sentinel in the result means that
    there was no match. *)
Lemma parseTimeAndDelay_sentinel rawText :
  td_std (parseTimeAndDelay rawText) = "--:--" \/
  td_etd (parseTimeAndDelay rawText) = "--:--" ->
  parseTimeAndDelay rawText = mkTimeDelay "--:--" "--:--" (Int 0).
Proof.
  pose proof (Matches_tokens _ _ (scan_times_Matches rawText)) as T.
  unfold parseTimeAndDelay, match_times.
  destruct (scan_times rawText) as [|m [|m' more]]; cbn; [reflexivity| |].
  - inversion T as [|? ? Hm _]; subst.
    intros [E|E]; rewrite E in Hm; discriminate Hm.
  - inversion T as [|? ? Hm T']; subst. inversion T' as [|? ? Hm' _]; subst.
    intros [E|E]; [rewrite E in Hm; discriminate Hm
                  | rewrite E in Hm'; discriminate Hm'].
Qed.

(** C7. Every record of [parseFlights] has a delay that is a number and is
    not negative, and a name that is not the empty string.  It comes from a
    row of the document; when the time text of that row (cell 4, trimmed)
    has no match of the time pattern, both times of the record are "--:--"
    and its delay is 0, and a record with one time "--:--" has both times
    "--:--" and delay 0. *)
Theorem parseFlights_invariants html r :
  In r (parseFlights html) ->
  (exists d, delayMins r = Int d /\ 0 <= d) /\
  airlineName r <> "" /\
  (exists row timeRaw,
      In row (Cheerio.select_all "tr" html) /\
      timeRaw =
        trim (Cheerio.text (Cheerio.wrap (nth_error (Spec.cells row) 4))) /\
      mkTimeDelay (std r) (etd r) (delayMins r) = parseTimeAndDelay timeRaw /\
      (match_times timeRaw = None ->
       std r = "--:--" /\ etd r = "--:--" /\ delayMins r = Int 0)) /\
  (std r = "--:--" \/ etd r = "--:--" ->
   std r = "--:--" /\ etd r = "--:--" /\ delayMins r = Int 0).
Proof.
  rewrite parseFlights_records, in_records_of.
  intros (row & Hin & Hr).
  destruct (row_record_cells row r Hr)
    as (c0 & c1 & c2 & c3 & c4 & c5 & c6 & rest & Hc & _ & ->).
  unfold Spec.record_of.
  cbn [delayMins airlineName std etd].
  set (timeRaw := trim (Cheerio.textContent c4)).
  split; [apply parseTimeAndDelay_delay|].
  split; [apply airlineName_not_empty|].
  split.
  - exists row, timeRaw. split; [exact Hin|]. split.
    + rewrite Hc. reflexivity.
    + split; [destruct (parseTimeAndDelay timeRaw); reflexivity|].
      intros Hn. rewrite (parseTimeAndDelay_no_match _ Hn). auto.
  - intros Hs. rewrite (parseTimeAndDelay_sentinel _ Hs). auto.
Qed.

Lemma parseFlights_invariants_witness :
  (exists d, delayMins Sample.bare_flight = Int d /\ 0 <= d) /\
  airlineName Sample.bare_flight <> "".
Proof.
  assert (H : In Sample.bare_flight (parseFlights Sample.html))
    by (vm_compute; right; left; reflexivity).
  destruct (parseFlights_invariants Sample.html Sample.bare_flight H)
    as (Hd & Hn & _).
  exact (conj Hd Hn).
Defined.

(** *** The [try] of getAirlineNameFromUrl *)

(** On a string the body of the [try] of [getAirlineNameFromUrl] raises
    nothing: every piece it calls [split] on is a string. *)
Lemma airline_name_try_string s : exists name, airline_name_try (JStr s) = Ok name.
Proof.
  unfold airline_name_try. cbn [method_split bind].
  rewrite pop_split. cbn [option_map method_split bind].
  rewrite first_split. cbn [option_map method_split bind].
  rewrite first_split. eexists. reflexivity.
Qed.

(** *** The cells of a row and the cells below it *)

(** Where every [td] below a row is a child of that row, the program
    counts the cells as the specification does and gives its records. *)
Lemma parseFlights_on_flat_rows html :
  (forall row, In row (Cheerio.select_all "tr" html) ->
               Spec.cells row = Spec.own_cells row) ->
  parseFlights html = Spec.expected_records html.
Proof.
  intros Hflat. rewrite parseFlights_records.
  unfold Spec.records_of, Spec.expected_records.
  induction (Cheerio.select_all "tr" html) as [|row rows IH];
    [reflexivity|].
  cbn [flat_map]. rewrite IH by (intros r Hr; apply Hflat; right; exact Hr).
  unfold Spec.row_record, Spec.expected_record.
  rewrite (Hflat row (or_introl eq_refl)). reflexivity.
Qed.

Example parseFlights_on_the_sample_table :
  parseFlights Sample.html = Spec.expected_records Sample.html.
Proof.
  apply parseFlights_on_flat_rows. intros row Hin. vm_compute in Hin.
  repeat (destruct Hin as [<-|Hin]; [reflexivity|]). contradiction.
Qed.

(** C5. On a row with a table in one of its cells the program does not map
    the cells of the row by position.  [Sample.annotated_row] has 7 data
    cells, the destination cell with a table of two cells; the program
    counts 9 cells, reads the time text from the second cell of the inner
    table, the gate from cell 3 and the status from cell 4, where the
    specification has the times of cell 4, the gate of cell 5 and the status
    of cell 6. *)
Theorem parseFlights_counts_cells_of_inner_tables :
  List.length (Spec.own_cells Sample.annotated_row) = 7%nat /\
  List.length (Spec.cells Sample.annotated_row) = 9%nat /\
  parseFlights [Sample.annotated_row] =
    [mkFlight (Some "/img/vistara_logo.png") "vistara" "UK 870"
              "Mumbai T2Intl" "--:--" "--:--" (Int 0) "-" "10:00 10:30"] /\
  Spec.expected_records [Sample.annotated_row] =
    [mkFlight (Some "/img/vistara_logo.png") "vistara" "UK 870"
              "Mumbai T2Intl" "10:00" "10:30" (Int 30) "G5" "On time"] /\
  parseFlights [Sample.annotated_row] <>
  Spec.expected_records [Sample.annotated_row].
Proof.
  split; [reflexivity|]. split; [reflexivity|].
  split; [vm_compute; reflexivity|]. split; [vm_compute; reflexivity|].
  vm_compute. discriminate.
Qed.

(** C8. A row with fewer than 7 cells is not always left out.
    [Sample.outer_row] has one data cell, which holds a table with a flight
    row; the specification gives it no record, but the callback counts the 7
    cells of the inner row with it and pushes a record, so that the document
    has two records where it has one flight. *)
Theorem short_row_around_a_table_is_not_skipped :
  List.length (Spec.own_cells Sample.outer_row) = 1%nat /\
  Spec.expected_record Sample.outer_row = None /\
  each_row [] Sample.outer_row =
    [mkFlight (Some "/img/indigo_logo.png") "indigo" "" "6E 123"
              "--:--" "--:--" (Int 0) "23:50 00:10" "21"] /\
  List.length (parseFlights [Sample.outer_row]) = 2%nat /\
  Spec.expected_records [Sample.outer_row] = [Sample.flight].
Proof.
  split; [reflexivity|]. split; [reflexivity|].
  split; [vm_compute; reflexivity|].
  split; vm_compute; reflexivity.
Qed.

(* ===================================================================== *)
(** ** FreshnessCache and handler: proofs *)
(* ===================================================================== *)

Lemma serves_from_cache_iff cache now :
  serves_from_cache cache now = true <->
  Spec.isFresh cache now CACHE_DURATION.
Proof.
  unfold serves_from_cache, isCacheFresh, Spec.isFresh.
  destruct (data cache) as [flights|].
  - rewrite Z.ltb_lt. split; [intros H; split; [discriminate | exact H]|].
    intros [_ H]. exact H.
  - split; [discriminate | intros [H _]; contradiction].
Qed.

(** C6. The handler serves from the cache exactly when records are present
    and [now - lastFetch] is below the window; after the cache is written
    at time t, it is fresh one millisecond before t + window and stale one
    millisecond after. *)
Theorem cache_freshness :
  (forall cache now,
      serves_from_cache cache now = true <->
      data cache <> None /\ now - lastFetch cache < CACHE_DURATION) /\
  (forall records t cache,
      let cache' := update_cache records t cache in
      data cache' = Some records /\ lastFetch cache' = t /\
      serves_from_cache cache' (t + CACHE_DURATION - 1) = true /\
      serves_from_cache cache' (t + CACHE_DURATION + 1) = false).
Proof.
  split; [exact serves_from_cache_iff|].
  intros records t cache. cbn. unfold serves_from_cache, isCacheFresh. cbn.
  repeat split.
  - apply Z.ltb_lt. lia.
  - apply Z.ltb_ge. lia.
Qed.

(** C9. A request that finds the cache fresh is answered with the cached
    sequence; the browser is not launched and the cache, records and time
    stamp, stays as it was. *)
Theorem fresh_cache_served cache now r now' :
  serves_from_cache cache now = true ->
  exists flights,
    data cache = Some flights /\
    api_departures cache now r now' = mkOutcome cache (Json flights) [].
Proof.
  unfold serves_from_cache, api_departures.
  destruct (data cache) as [flights|]; [|discriminate].
  intros ->. exists flights. split; reflexivity.
Qed.

Lemma fetch_flights_failure r reason :
  Spec.failure_reason r = Some reason -> fetch_flights r = Throw reason.
Proof.
  destruct r as [m|m|[|] code body]; cbn; intros H; inversion H; reflexivity.
Qed.

Lemma api_departures_stale cache now r now' :
  serves_from_cache cache now = false ->
  api_departures cache now r now' = refresh cache r now'.
Proof.
  unfold serves_from_cache, api_departures.
  destruct (data cache); [intros ->|]; reflexivity.
Qed.

(** The answer of a refresh that failed. *)
Lemma refresh_failure cache r now' reason :
  Spec.failure_reason r = Some reason ->
  cache_after (refresh cache r now') = cache /\
  response (refresh cache r now') =
    match data cache with
    | Some stale => Json stale
    | None => Status500 "Failed to fetch flight data" reason
    end.
Proof.
  intros H. unfold refresh. rewrite (fetch_flights_failure r reason H).
  destruct (data cache); split; reflexivity.
Qed.

(** The handler answers 500 only from the [catch], with no records in the
    cache. *)
Lemma status500_only_without_data cache now r now' e details :
  response (api_departures cache now r now') = Status500 e details ->
  data cache = None /\ Spec.failure_reason r = Some details.
Proof.
  unfold api_departures, refresh.
  destruct (data cache) as [flights|] eqn:Ed.
  - destruct (isCacheFresh cache now); [discriminate|].
    destruct (fetch_flights r); discriminate.
  - destruct (fetch_flights r) as [flights|m] eqn:Ef; [discriminate|].
    cbn. intros [= _ <-]. split; [reflexivity|].
    destruct r as [m'|m'|[|] code body]; cbn in *; congruence.
Qed.

(** C1. A request that does not find the cache fresh and whose page is not
    delivered (the browser or the navigation raises, or the status is not a
    success) is answered with the records of the cache when there are any,
    however old, and otherwise with status 500 and the reason of the
    failure; the cache is left as it was.  Status 500 is never the answer
    while the cache holds records. *)
Theorem stale_fallback cache now r now' reason :
  serves_from_cache cache now = false ->
  Spec.failure_reason r = Some reason ->
  cache_after (api_departures cache now r now') = cache /\
  response (api_departures cache now r now') =
    match data cache with
    | Some stale => Json stale
    | None => Status500 "Failed to fetch flight data" reason
    end /\
  (forall now0 r0 now0' e details,
      response (api_departures cache now0 r0 now0') = Status500 e details ->
      data cache = None).
Proof.
  intros Hstale Hfail. rewrite (api_departures_stale _ _ _ _ Hstale).
  destruct (refresh_failure cache r now' reason Hfail) as [Hc Hr].
  split; [exact Hc|]. split; [exact Hr|].
  intros now0 r0 now0' e details H.
  exact (proj1 (status500_only_without_data _ _ _ _ _ _ H)).
Qed.

Lemma fresh_cache_served_witness :
  api_departures Sample.cache (Sample.t0 + 60000)
                 (PageRejects "net::ERR_TIMED_OUT") (Sample.t0 + 61000)
  = mkOutcome Sample.cache (Json [Sample.flight; Sample.bare_flight]) [].
Proof.
  destruct (fresh_cache_served Sample.cache (Sample.t0 + 60000)
              (PageRejects "net::ERR_TIMED_OUT") (Sample.t0 + 61000) eq_refl)
    as (flights & Hd & Ho).
  injection Hd as <-. exact Ho.
Defined.

Lemma stale_fallback_witness :
  response (api_departures Sample.cache (Sample.t0 + CACHE_DURATION + 1)
              (Responds false 503 []) (Sample.t0 + CACHE_DURATION + 9))
  = Json [Sample.flight; Sample.bare_flight].
Proof.
  exact (proj1 (proj2
    (stale_fallback Sample.cache (Sample.t0 + CACHE_DURATION + 1)
       (Responds false 503 []) (Sample.t0 + CACHE_DURATION + 9)
       "Airport server responded with 503" eq_refl eq_refl))).
Defined.

Example first_request_fails :
  response (api_departures initial_cache Sample.t0
              (Responds false 503 []) (Sample.t0 + 9))
  = Status500 "Failed to fetch flight data" "Airport server responded with 503".
Proof. reflexivity. Qed.

(** *** An empty result is cached data *)

Lemma refresh_success cache status_code body now' :
  refresh cache (Responds true status_code body) now' =
  mkOutcome (mkCache (Some (parseFlights body)) now')
            (Json (parseFlights body)) [LaunchBrowser; CloseBrowser].
Proof. reflexivity. Qed.

(** A refresh never empties the cache and answers 500 only without data. *)
Lemma refresh_keeps_data cache r now' :
  data cache <> None ->
  data (cache_after (refresh cache r now')) <> None /\
  forall e details, response (refresh cache r now') <> Status500 e details.
Proof.
  intros Hd. unfold refresh.
  destruct (fetch_flights r) as [flights|m]; cbn.
  - split; discriminate.
  - destruct (data cache) as [stale|] eqn:Ed; [|contradiction]. cbn.
    rewrite Ed. split; discriminate.
Qed.

Lemma step_keeps_data s a :
  data (cache_of s) <> None ->
  data (cache_of (fst (step s a))) <> None /\
  forall e details, snd (step s a) <> Some (Status500 e details).
Proof.
  intros Hd. destruct a as [now|r now']; cbn.
  - destruct (data (cache_of s)) as [flights|] eqn:Ed; [|contradiction].
    destruct (isCacheFresh (cache_of s) now); cbn; rewrite ?Ed;
      split; discriminate.
  - destruct (in_flight s); cbn; [split; [exact Hd | discriminate]|].
    destruct (refresh_keeps_data (cache_of s) r now' Hd) as [H1 H2].
    split; [exact H1|]. intros e details [= H]. exact (H2 e details H).
Qed.

(** Whatever requests arrive and complete, in whatever order, a cache that
    holds records keeps holding records and no answer is a 500. *)
Lemma run_keeps_data actions s :
  data (cache_of s) <> None ->
  data (cache_of (fst (run s actions))) <> None /\
  forall e details, ~ In (Status500 e details) (snd (run s actions)).
Proof.
  revert s. induction actions as [|a actions IH]; intros s Hd; cbn.
  - split; [exact Hd | intros e details []].
  - destruct (step_keeps_data s a Hd) as [H1 H2].
    destruct (step s a) as [s1 o]. cbn in H1, H2.
    destruct (IH s1 H1) as [H3 H4].
    destruct (run s1 actions) as [s2 rs]. cbn in *.
    split; [exact H3|]. intros e details.
    destruct o as [resp|]; [|apply H4].
    intros [->|Hin]; [exact (H2 e details eq_refl) | exact (H4 e details Hin)].
Qed.

(** C10. A refresh that parses no flight stores the empty sequence with
    the time of the refresh.  The empty sequence then is the answer while
    the cache is fresh, without a launch of the browser, and it is the
    answer when a later refresh fails, in place of status 500.  From then
    on, whatever requests arrive and complete, the cache holds records and
    no answer is a status 500. *)
Theorem empty_refresh_is_cached cache now status_code body now' :
  serves_from_cache cache now = false ->
  parseFlights body = [] ->
  let o := api_departures cache now (Responds true status_code body) now' in
  response o = Json [] /\
  cache_after o = mkCache (Some []) now' /\
  (forall now2 r2 now2',
      now2 - now' < CACHE_DURATION ->
      api_departures (cache_after o) now2 r2 now2' =
      mkOutcome (cache_after o) (Json []) []) /\
  (forall now2 r2 now2' reason,
      Spec.failure_reason r2 = Some reason ->
      response (api_departures (cache_after o) now2 r2 now2') = Json [] /\
      cache_after (api_departures (cache_after o) now2 r2 now2') =
      cache_after o) /\
  (forall n actions,
      let result := run (mkServer (cache_after o) n) actions in
      data (cache_of (fst result)) <> None /\
      forall e details, ~ In (Status500 e details) (snd result)).
Proof.
  intros Hstale Hempty o. subst o.
  rewrite (api_departures_stale _ _ _ _ Hstale), refresh_success, Hempty.
  cbn [response cache_after].
  split; [reflexivity|]. split; [reflexivity|]. split; [|split].
  - intros now2 r2 now2' Hage. unfold api_departures, isCacheFresh.
    cbn [data lastFetch].
    apply Z.ltb_lt in Hage. rewrite Hage. reflexivity.
  - intros now2 r2 now2' reason Hfail.
    unfold api_departures, isCacheFresh. cbn [data lastFetch].
    destruct (now2 - now' <? CACHE_DURATION); [split; reflexivity|].
    destruct (refresh_failure (mkCache (Some []) now') r2 now2' reason Hfail)
      as [Hc Hr].
    rewrite Hc, Hr. split; reflexivity.
  - intros n actions. apply run_keeps_data. discriminate.
Qed.

Lemma empty_refresh_is_cached_witness :
  response (api_departures initial_cache Sample.t0
              (Responds true 200 [Sample.short_row]) (Sample.t0 + 4000))
  = Json [].
Proof.
  exact (proj1
    (empty_refresh_is_cached initial_cache Sample.t0 200 [Sample.short_row]
       (Sample.t0 + 4000) eq_refl eq_refl)).
Defined.

(* ===================================================================== *)
(** ** The sample table, end to end *)
(* ===================================================================== *)

Example first_refresh :
  api_departures initial_cache Sample.t0
                 (Responds true 200 Sample.html) Sample.t0
  = mkOutcome Sample.cache (Json [Sample.flight; Sample.bare_flight])
              [LaunchBrowser; CloseBrowser].
Proof. vm_compute. reflexivity. Qed.

Example launch_failure_closes_nothing :
  events (api_departures Sample.cache (Sample.t0 + CACHE_DURATION)
            (LaunchRejects "Failed to launch the browser process")
            (Sample.t0 + CACHE_DURATION))
  = [LaunchBrowser].
Proof. reflexivity. Qed.

(** Two requests find the cache stale and both refresh; the one that fails
    completes last and is answered with what the other stored. *)
Example two_refreshes_in_flight :
  snd (run (mkServer initial_cache 0)
           [Arrive 1000; Arrive 1001;
            Complete (Responds true 200 Sample.html) 4000;
            Complete (PageRejects "Navigation timeout") 5000;
            Arrive 6000])
  = [Json [Sample.flight; Sample.bare_flight];
     Json [Sample.flight; Sample.bare_flight];
     Json [Sample.flight; Sample.bare_flight]].
Proof. vm_compute. reflexivity. Qed.

Example rows_keep_order_and_duplicates :
  map flightNo
      (parseFlights [Sample.bare_row; Sample.flight_row; Sample.bare_row])
  = ["AI 560"; "6E 123"; "AI 560"].
Proof. vm_compute. reflexivity. Qed.

(* ===================================================================== *)
(** * Further properties *)
(* ===================================================================== *)

(** ** TimeDelay *)

Lemma minutes_of_nonneg t :
  Spec.is_time_token t = true -> 0 <= Spec.minutes_of t.
Proof.
  intros H. destruct (hours_minutes_token t H) as (h & m & _ & ? & ? & <-). lia.
Qed.

(** X1. An estimate that is earlier than the schedule by 12 hours or less
    is no delay: the result is 0, not a negative number. *)
Theorem early_estimate_is_no_delay std etd :
  Spec.is_time_token std = true ->
  Spec.is_time_token etd = true ->
  Spec.minutes_of std - 12 * 60 <= Spec.minutes_of etd <= Spec.minutes_of std ->
  calculateDelayMinutes std etd = Int 0.
Proof.
  intros Hs He Hr. rewrite (calculateDelayMinutes_tokens std etd Hs He).
  unfold Spec.delay_between.
  destruct (Z.ltb_spec (Spec.minutes_of etd) (Spec.minutes_of std - 12 * 60));
    f_equal; lia.
Qed.

Lemma early_estimate_is_no_delay_witness :
  calculateDelayMinutes "18:30" "06:30" = Int 0.
Proof.
  apply (early_estimate_is_no_delay "18:30" "06:30" eq_refl eq_refl).
  vm_compute. split; discriminate.
Defined.

(** X2. For two times of a day (both before 24:00) the delay is below 24
    hours; when the estimate is more than 12 hours before the schedule it
    is read as a time of the next day, and the delay is then the distance
    over midnight, more than 0 and less than 12 hours. *)
Theorem delay_within_a_day std etd :
  Spec.is_time_token std = true ->
  Spec.is_time_token etd = true ->
  Spec.minutes_of std < 24 * 60 ->
  Spec.minutes_of etd < 24 * 60 ->
  exists d,
    calculateDelayMinutes std etd = Int d /\ 0 <= d < 24 * 60 /\
    (Spec.minutes_of etd < Spec.minutes_of std - 12 * 60 ->
     d = Spec.minutes_of etd + 24 * 60 - Spec.minutes_of std /\
     0 < d < 12 * 60).
Proof.
  intros Hs He Ha Hb. rewrite (calculateDelayMinutes_tokens std etd Hs He).
  pose proof (minutes_of_nonneg std Hs). pose proof (minutes_of_nonneg etd He).
  eexists. split; [reflexivity|]. unfold Spec.delay_between.
  destruct (Z.ltb_spec (Spec.minutes_of etd) (Spec.minutes_of std - 12 * 60));
    lia.
Qed.

Lemma delay_within_a_day_witness :
  exists d, calculateDelayMinutes "22:15" "1:05" = Int d /\ 0 <= d < 24 * 60.
Proof.
  destruct (delay_within_a_day "22:15" "1:05" eq_refl eq_refl eq_refl eq_refl)
    as (d & Hd & Hb & _).
  exists d. split; assumption.
Defined.

(** *** Where the matches stand in the text *)

Lemma append_assoc (a b c : string) : (a ++ b) ++ c = a ++ (b ++ c).
Proof. induction a as [|x a IH]; simpl; [|rewrite IH]; reflexivity. Qed.

(** The first match stands in the text, and the others are the matches of
    what follows it. *)
Lemma Matches_cons s m ms :
  Spec.Matches s (m :: ms) ->
  exists pre rest, s = pre ++ m ++ rest /\ Spec.Matches rest ms.
Proof.
  intros H. remember (m :: ms) as l eqn:El. revert m ms El.
  induction H as [|c s l Hno H IH|t r l Ht H _]; intros m ms El.
  - discriminate El.
  - destruct (IH m ms El) as (pre & rest & -> & Hr).
    exists (String c pre), rest. split; [reflexivity | exact Hr].
  - injection El as <- <-. exists "", r. split; [reflexivity | exact H].
Qed.

(** X3. The result of [parseTimeAndDelay] is the sentinel triple, for a
    text without a match, or else both of its times have the shape of the
    pattern and stand in the text: one match m is both times, and of two
    the scheduled time stands before the estimated one, without overlap. *)
Theorem parseTimeAndDelay_times_are_in_the_text rawText :
  let t := parseTimeAndDelay rawText in
  (match_times rawText = None /\ t = mkTimeDelay "--:--" "--:--" (Int 0)) \/
  (Spec.is_time_token (td_std t) = true /\
   Spec.is_time_token (td_etd t) = true /\
   exists pre post,
     rawText = pre ++ td_std t ++ post /\
     ((td_etd t = td_std t /\ td_delayMins t = Int 0 /\ scan_times post = []) \/
      exists mid post', post = mid ++ td_etd t ++ post')).
Proof.
  cbn zeta. pose proof (scan_times_Matches rawText) as M.
  pose proof (Matches_tokens _ _ M) as T.
  unfold parseTimeAndDelay, match_times.
  destruct (scan_times rawText) as [|m [|m' more]] eqn:E.
  - left. split; reflexivity.
  - right. cbn. inversion T as [|? ? Hm _]; subst.
    destruct (Matches_cons _ _ _ M) as (pre & post & Hs & Hp).
    split; [exact Hm|]. split; [exact Hm|].
    exists pre, post. split; [exact Hs|]. left.
    split; [reflexivity|]. split; [apply calculateDelayMinutes_same|].
    symmetry. apply Matches_scan_times. exact Hp.
  - right. cbn. inversion T as [|? ? Hm T']; subst.
    inversion T' as [|? ? Hm' _]; subst.
    destruct (Matches_cons _ _ _ M) as (pre & post & Hs & Hp).
    destruct (Matches_cons _ _ _ Hp) as (mid & post' & Hs' & _).
    split; [exact Hm|]. split; [exact Hm'|].
    exists pre, post. split; [exact Hs|]. right.
    exists mid, post'. exact Hs'.
Qed.

(** *** Text around the times *)

Lemma token_has_colon t : Spec.is_time_token t = true -> Spec.occurs ":" t = true.
Proof.
  intros H.
  destruct (is_time_token_inv t H)
    as [(a & c & d & -> & _) | (a & b & d & e & -> & _)]; cbn;
    rewrite ?orb_true_r; reflexivity.
Qed.

Lemma occurs_app c a b :
  Spec.occurs c (a ++ b) = Spec.occurs c a || Spec.occurs c b.
Proof.
  induction a as [|x a IH]; simpl; [reflexivity|].
  rewrite IH, orb_assoc. reflexivity.
Qed.

Lemma time_pattern_at_needs_digit c r :
  isDigit c = false -> time_pattern_at (String c r) = None.
Proof.
  intros H. unfold time_pattern_at, two_digits, one_digit. rewrite H.
  destruct r; reflexivity.
Qed.

Lemma time_pattern_at_needs_colon s :
  Spec.occurs ":" s = false -> time_pattern_at s = None.
Proof.
  intros H. destruct (time_pattern_at s) as [[t r]|] eqn:E; [|reflexivity].
  destruct (time_pattern_at_sound _ _ _ E) as [Ht ->].
  rewrite occurs_app, (token_has_colon t Ht) in H. discriminate H.
Qed.

Lemma scan_times_no_digit g s :
  Spec.has_digit g = false -> scan_times (g ++ s) = scan_times s.
Proof.
  induction g as [|c g IH]; simpl; [reflexivity|].
  intros H. apply orb_false_elim in H. destruct H as [Hc Hg].
  rewrite scan_times_cons, (time_pattern_at_needs_digit _ _ Hc). exact (IH Hg).
Qed.

Lemma scan_times_no_colon s : Spec.occurs ":" s = false -> scan_times s = [].
Proof.
  induction s as [|c r IH]; [reflexivity|].
  intros H. rewrite scan_times_cons, (time_pattern_at_needs_colon _ H).
  apply IH. simpl in H. apply orb_false_elim in H. exact (proj2 H).
Qed.

Lemma append_empty_r (s : string) : s ++ "" = s.
Proof. induction s as [|c s IH]; simpl; [|rewrite IH]; reflexivity. Qed.

(** X4. A text without a colon, or without a digit, has no time: the
    result is ("--:--", "--:--", 0).  The empty text is such a text. *)
Theorem parseTimeAndDelay_without_time rawText :
  Spec.occurs ":" rawText = false \/ Spec.has_digit rawText = false ->
  parseTimeAndDelay rawText = mkTimeDelay "--:--" "--:--" (Int 0).
Proof.
  intros H. apply parseTimeAndDelay_no_match. unfold match_times.
  replace (scan_times rawText) with (@nil string); [reflexivity|].
  symmetry. destruct H as [H|H].
  - apply scan_times_no_colon. exact H.
  - rewrite <- (append_empty_r rawText), (scan_times_no_digit _ "" H).
    reflexivity.
Qed.

Lemma parseTimeAndDelay_without_time_witness :
  parseTimeAndDelay "Cancelled (see desk 4)" =
  mkTimeDelay "--:--" "--:--" (Int 0).
Proof.
  apply parseTimeAndDelay_without_time. left. reflexivity.
Defined.

(** X5. Text without digits before, between and behind the times does not
    change the result: two times, whatever follows the second, give the
    first as scheduled and the second as estimated with their delay, and
    one time alone gives that time twice and delay 0. *)
Theorem parseTimeAndDelay_ignores_other_text g0 t1 g1 t2 rest :
  Spec.has_digit g0 = false ->
  Spec.has_digit g1 = false ->
  Spec.is_time_token t1 = true ->
  Spec.is_time_token t2 = true ->
  parseTimeAndDelay (g0 ++ t1 ++ g1 ++ t2 ++ rest) =
    mkTimeDelay t1 t2 (calculateDelayMinutes t1 t2) /\
  parseTimeAndDelay (g0 ++ t1 ++ g1) = mkTimeDelay t1 t1 (Int 0).
Proof.
  intros H0 H1 T1 T2. unfold parseTimeAndDelay, match_times.
  rewrite !(scan_times_no_digit g0 _ H0), !(scan_times_token t1 _ T1).
  rewrite (scan_times_no_digit g1 _ H1), (scan_times_token t2 _ T2).
  split; [reflexivity|].
  rewrite <- (append_empty_r g1), (scan_times_no_digit g1 "" H1).
  simp scan_times. cbn. rewrite calculateDelayMinutes_same. reflexivity.
Qed.

Lemma parseTimeAndDelay_ignores_other_text_witness :
  parseTimeAndDelay "STD 21:40 / ETD 22:25 (gate closes 22:05)" =
  mkTimeDelay "21:40" "22:25" (Int 45).
Proof.
  exact (proj1 (parseTimeAndDelay_ignores_other_text
                  "STD " "21:40" " / ETD " "22:25" " (gate closes 22:05)"
                  eq_refl eq_refl eq_refl eq_refl)).
Defined.

(** ** AirlineResolver *)

Lemma occurs_after_last sep s : Spec.occurs sep (Spec.after_last sep s) = false.
Proof.
  induction s as [|c r IH]; [reflexivity|]. cbn [Spec.after_last].
  destruct (Spec.occurs sep r) eqn:Er; [exact IH|].
  destruct (Ascii.eqb c sep) eqn:Ec; [exact Er|].
  simpl. rewrite Ec, Er. reflexivity.
Qed.

Lemma occurs_before_first sep s :
  Spec.occurs sep (Spec.before_first sep s) = false.
Proof.
  induction s as [|c r IH]; [reflexivity|]. cbn [Spec.before_first].
  destruct (Ascii.eqb c sep) eqn:Ec; [reflexivity|].
  simpl. rewrite Ec, IH. reflexivity.
Qed.

Lemma occurs_before_first_other c sep s :
  Spec.occurs c s = false -> Spec.occurs c (Spec.before_first sep s) = false.
Proof.
  induction s as [|x r IH]; [reflexivity|]. simpl.
  intros H. apply orb_false_elim in H. destruct H as [Hx Hr].
  destruct (Ascii.eqb x sep); [reflexivity|].
  simpl. rewrite Hx, (IH Hr). reflexivity.
Qed.

Lemma occurs_replace_hyphens c s :
  c <> " "%char ->
  Spec.occurs c s = false \/ c = "-"%char ->
  Spec.occurs c (replace_hyphens s) = false.
Proof.
  intros Hsp H. induction s as [|x r IH]; [reflexivity|]. simpl.
  destruct (Ascii.eqb_spec x "-") as [->|Hx].
  - rewrite IH.
    + destruct (Ascii.eqb_spec " " c) as [E|_]; [congruence | reflexivity].
    + destruct H as [H|H]; [|right; exact H].
      left. simpl in H. apply orb_false_elim in H. exact (proj2 H).
  - destruct H as [H|H].
    + simpl in H. apply orb_false_elim in H. destruct H as [H1 H2].
      rewrite H1, (IH (or_introl H2)). reflexivity.
    + subst c. rewrite (IH (or_intror eq_refl)).
      destruct (Ascii.eqb_spec x "-"); [contradiction | reflexivity].
Qed.

Lemma replace_hyphens_none s :
  Spec.occurs "-" s = false -> replace_hyphens s = s.
Proof.
  induction s as [|x r IH]; [reflexivity|]. simpl.
  intros H. apply orb_false_elim in H. destruct H as [Hx Hr].
  rewrite Hx, (IH Hr). reflexivity.
Qed.

Lemma before_first_none sep s :
  Spec.occurs sep s = false -> Spec.before_first sep s = s.
Proof.
  induction s as [|x r IH]; [reflexivity|]. simpl.
  intros H. apply orb_false_elim in H. destruct H as [Hx Hr].
  rewrite Hx, (IH Hr). reflexivity.
Qed.

Lemma after_last_none sep s :
  Spec.occurs sep s = false -> Spec.after_last sep s = s.
Proof.
  destruct s as [|x r]; [reflexivity|]. simpl.
  intros H. apply orb_false_elim in H. destruct H as [Hx Hr].
  rewrite Hr, Hx. reflexivity.
Qed.

Lemma getAirlineNameFromUrl_segment s :
  getAirlineNameFromUrl (JStr s) = Spec.name_of_segment (Spec.after_last "/" s).
Proof.
  destruct s as [|c r]; [reflexivity|]. apply getAirlineNameFromUrl_string.
Qed.

(** X6. Whatever the input, the name holds no slash, no dot, no underscore
    and no hyphen. *)
Theorem airline_name_has_no_separator url c :
  In c Spec.separators ->
  Spec.occurs c (getAirlineNameFromUrl url) = false.
Proof.
  intros Hc.
  assert (Hsp : c <> " "%char)
    by (destruct Hc as [<-|[<-|[<-|[<-|[]]]]]; discriminate).
  assert (Hother : Spec.occurs c "Other" = false)
    by (destruct Hc as [<-|[<-|[<-|[<-|[]]]]]; reflexivity).
  rewrite getAirlineNameFromUrl_first_dot.
  destruct url as [| | | |s]; try exact Hother.
  change (Spec.resolveAirlineName_first_dot (JStr s))
    with (match s with
          | "" => Spec.sentinel
          | _ => Spec.name_of_segment (Spec.after_last "/" s)
          end).
  destruct s as [|x r]; [exact Hother|].
  unfold Spec.name_of_segment, Spec.or_sentinel.
  match goal with |- context [if ?b then _ else _] => destruct b end;
    [exact Hother|].
  apply occurs_replace_hyphens; [exact Hsp|].
  destruct Hc as [<-|[<-|[<-|[<-|[]]]]].
  - left. apply occurs_before_first_other, occurs_before_first_other,
      occurs_after_last.
  - left. apply occurs_before_first_other, occurs_before_first.
  - left. apply occurs_before_first.
  - right. reflexivity.
Qed.

Lemma airline_name_has_no_separator_witness :
  Spec.occurs "." (getAirlineNameFromUrl (JStr "a.b/c-d.e_f.g")) = false.
Proof.
  apply airline_name_has_no_separator. right. left. reflexivity.
Defined.

Lemma name_of_last_segment dir file :
  Spec.occurs "/" file = false ->
  getAirlineNameFromUrl (JStr (dir ++ "/" ++ file)) =
  getAirlineNameFromUrl (JStr file).
Proof.
  intros H. rewrite !getAirlineNameFromUrl_segment.
  change (dir ++ "/" ++ file) with (dir ++ String "/" file).
  rewrite (after_last_app "/" dir file H), (after_last_none "/" file H).
  reflexivity.
Qed.

(** X7. Only the final path segment counts: a directory, a host or a
    scheme before the last slash does not change the name. *)
Theorem airline_name_ignores_directory dir file :
  Spec.occurs "/" file = false ->
  getAirlineNameFromUrl (JStr (dir ++ "/" ++ file)) =
  getAirlineNameFromUrl (JStr file).
Proof. apply name_of_last_segment. Qed.

Lemma airline_name_ignores_directory_witness :
  getAirlineNameFromUrl (JStr "https://www.hyderabad.aero/images/vistara_logo.png")
  = getAirlineNameFromUrl (JStr "vistara_logo.png").
Proof.
  exact (airline_name_ignores_directory "https://www.hyderabad.aero/images"
           "vistara_logo.png" eq_refl).
Defined.

(** X8. A text that is not empty and holds none of slash, dot, underscore
    and hyphen is its own name: the function changes nothing in it, so
    applying it to one of its results gives that result again. *)
Theorem airline_name_of_clean_text s :
  s <> "" ->
  (forall c, In c Spec.separators -> Spec.occurs c s = false) ->
  getAirlineNameFromUrl (JStr s) = s.
Proof.
  intros Hne H. rewrite getAirlineNameFromUrl_segment.
  unfold Spec.name_of_segment.
  rewrite (after_last_none "/" s) by (apply H; simpl; auto).
  rewrite (before_first_none "." s) by (apply H; simpl; auto).
  rewrite (before_first_none "_" s) by (apply H; simpl; auto).
  rewrite (replace_hyphens_none s) by (apply H; simpl; auto).
  unfold Spec.or_sentinel.
  destruct (String.eqb_spec s ""); [contradiction | reflexivity].
Qed.

Lemma airline_name_of_clean_text_witness :
  getAirlineNameFromUrl (JStr "air india") = "air india".
Proof.
  apply airline_name_of_clean_text; [discriminate|].
  intros c [<-|[<-|[<-|[<-|[]]]]]; reflexivity.
Defined.

(** X9. A reference that ends in a slash, or whose final segment begins
    with a dot or an underscore, has the name "Other". *)
Theorem airline_name_of_nameless_file dir file :
  Spec.occurs "/" file = false ->
  (file = "" \/ exists c rest,
      file = String c rest /\ (c = "."%char \/ c = "_"%char)) ->
  getAirlineNameFromUrl (JStr (dir ++ "/" ++ file)) = "Other".
Proof.
  intros Hs H. rewrite (name_of_last_segment dir file Hs).
  destruct H as [->|(c & rest & -> & [->| ->])]; [reflexivity| |].
  - rewrite getAirlineNameFromUrl_segment, (after_last_none "/" _ Hs).
    reflexivity.
  - rewrite getAirlineNameFromUrl_segment, (after_last_none "/" _ Hs).
    unfold Spec.name_of_segment. cbn [Spec.before_first].
    destruct (Spec.before_first "." (String "_" rest)) as [|x y] eqn:E;
      [reflexivity|].
    simpl in E. injection E as <- _. reflexivity.
Qed.

Lemma airline_name_of_nameless_file_witness :
  getAirlineNameFromUrl (JStr "/img/airlines/_logo.png") = "Other".
Proof.
  apply (airline_name_of_nameless_file "/img/airlines" "_logo.png" eq_refl).
  right. exists "_"%char, "logo.png". split; [reflexivity | right; reflexivity].
Defined.

(** ** FlightTableParser *)

Lemma records_of_app rows1 rows2 :
  Spec.records_of (rows1 ++ rows2) =
  (Spec.records_of rows1 ++ Spec.records_of rows2)%list.
Proof. unfold Spec.records_of. apply flat_map_app. Qed.

Lemma select_all_app name d1 d2 :
  Cheerio.select_all name (d1 ++ d2)%list =
  (Cheerio.select_all name d1 ++ Cheerio.select_all name d2)%list.
Proof. unfold Cheerio.select_all. apply flat_map_app. Qed.

(** X10. The rows are read one by one: the records of a document are those
    of its parts, one after the other.  An element that is not a row
    (table, tbody, div, ...) around some nodes changes nothing, text and
    comments give no record, and a row gives its own record, if it has one,
    before those of the rows inside it. *)
Theorem parseFlights_by_parts :
  (forall d1 d2,
      parseFlights (d1 ++ d2)%list =
      (parseFlights d1 ++ parseFlights d2)%list) /\
  (forall name attribs children,
      name <> "tr" ->
      parseFlights [Element name attribs children] = parseFlights children) /\
  (forall data, parseFlights [Text data] = [] /\ parseFlights [Comment data] = []) /\
  (forall attribs children,
      parseFlights [Element "tr" attribs children] =
      (Spec.option_list (Spec.row_record (Element "tr" attribs children)) ++
       parseFlights children)%list).
Proof.
  split; [|split; [|split]].
  - intros d1 d2.
    rewrite !parseFlights_records, select_all_app, records_of_app.
    reflexivity.
  - intros name attribs children Hn. rewrite !parseFlights_records.
    unfold Cheerio.select_all. cbn [flat_map Cheerio.select].
    destruct (String.eqb_spec name "tr"); [contradiction|].
    rewrite app_nil_r. reflexivity.
  - intros data. split; reflexivity.
  - intros attribs children. rewrite !parseFlights_records.
    unfold Cheerio.select_all. cbn [flat_map Cheerio.select String.eqb].
    rewrite app_nil_r. reflexivity.
Qed.

Lemma records_of_length rows :
  (List.length (Spec.records_of rows) <= List.length rows)%nat.
Proof.
  induction rows as [|row rows IH]; [reflexivity|].
  rewrite records_of_cons, List.length_app. cbn [List.length].
  destruct (Spec.row_record row); cbn; lia.
Qed.

(** X11. There are at most as many records as the document has [tr]
    elements: a row gives one record or none. *)
Theorem parseFlights_at_most_one_per_row html :
  (List.length (parseFlights html)
   <= List.length (Cheerio.select_all "tr" html))%nat.
Proof. rewrite parseFlights_records. apply records_of_length. Qed.

(** *** trim *)

Lemma trimEnd_idempotent s : trimEnd (trimEnd s) = trimEnd s.
Proof.
  induction s as [|c r IH]; [reflexivity|]. cbn [trimEnd].
  destruct (trimEnd r) as [|x r'] eqn:E.
  - destruct (isSpace c) eqn:Ec; [reflexivity|]. cbn. rewrite Ec. reflexivity.
  - cbn [trimEnd] in IH |- *. fold trimEnd in IH |- *.
    change (trimEnd (String c (String x r')))
      with (match trimEnd (String x r') with
            | "" => if isSpace c then "" else String c ""
            | r'' => String c r''
            end).
    rewrite IH. reflexivity.
Qed.

Lemma trimStart_head s :
  trimStart s = "" \/
  exists c r, trimStart s = String c r /\ isSpace c = false.
Proof.
  induction s as [|c r IH]; [left; reflexivity|]. simpl.
  destruct (isSpace c) eqn:Ec; [exact IH|].
  right. exists c, r. split; [reflexivity | exact Ec].
Qed.

Lemma trimEnd_head c r :
  isSpace c = false -> exists r', trimEnd (String c r) = String c r'.
Proof.
  intros Hc. cbn [trimEnd]. destruct (trimEnd r) as [|x r'].
  - rewrite Hc. exists "". reflexivity.
  - exists (String x r'). reflexivity.
Qed.

Lemma trim_idempotent s : trim (trim s) = trim s.
Proof.
  unfold trim. destruct (trimStart_head s) as [->|(c & r & -> & Hc)];
    [reflexivity|].
  destruct (trimEnd_head c r Hc) as (r' & E). rewrite E.
  cbn [trimStart]. rewrite Hc, <- E. apply trimEnd_idempotent.
Qed.

(** X12. No record has a destination that reads as a header: in lower case
    it does not contain "origin". *)
Theorem no_record_has_a_header_destination html r :
  In r (parseFlights html) ->
  includes "origin" (toLowerCase (dest r)) = false.
Proof.
  rewrite parseFlights_records, in_records_of.
  intros (row & _ & Hr).
  destruct (row_record_cells row r Hr)
    as (c0 & c1 & c2 & c3 & c4 & c5 & c6 & rest & _ & Hh & ->).
  exact Hh.
Qed.

Lemma no_record_has_a_header_destination_witness :
  includes "origin" (toLowerCase (dest Sample.flight)) = false.
Proof.
  apply (no_record_has_a_header_destination Sample.html).
  vm_compute. left. reflexivity.
Defined.

Lemma trimEnd_last s :
  match Spec.last_char (trimEnd s) with
  | Some l => isSpace l = false
  | None => True
  end.
Proof.
  induction s as [|c r IH]; [exact I|]. cbn [trimEnd].
  destruct (trimEnd r) as [|x r'].
  - destruct (isSpace c) eqn:Ec; [exact I | exact Ec].
  - exact IH.
Qed.

Lemma trim_no_space_at_an_end s : Spec.space_at_an_end (trim s) = false.
Proof.
  unfold trim. pose proof (trimEnd_last (trimStart s)) as L.
  destruct (trimStart_head s) as [->|(c & r & E & Hc)]; [reflexivity|].
  rewrite E in *. destruct (trimEnd_head c r Hc) as (r' & E').
  rewrite E' in *. unfold Spec.space_at_an_end. rewrite Hc.
  destruct (Spec.last_char (String c r')); [exact L | reflexivity].
Qed.

(** X13. The flight number, the destination, the gate and the status of a
    record neither begin nor end with white space. *)
Theorem record_texts_are_trimmed html r field :
  In r (parseFlights html) ->
  In field [flightNo r; dest r; gate r; status r] ->
  Spec.space_at_an_end field = false.
Proof.
  rewrite parseFlights_records, in_records_of.
  intros (row & _ & Hr) Hf.
  destruct (row_record_cells row r Hr)
    as (c0 & c1 & c2 & c3 & c4 & c5 & c6 & rest & _ & _ & ->).
  unfold Spec.record_of in Hf. cbn [flightNo dest gate status] in Hf.
  destruct Hf as [<-|[<-|[<-|[<-|[]]]]]; apply trim_no_space_at_an_end.
Qed.

Lemma record_texts_are_trimmed_witness :
  Spec.space_at_an_end (flightNo Sample.flight) = false.
Proof.
  apply (record_texts_are_trimmed Sample.html Sample.flight).
  - vm_compute. left. reflexivity.
  - left. reflexivity.
Defined.

(** *** The header test *)

Lemma toLowerCase_app a b :
  toLowerCase (a ++ b) = toLowerCase a ++ toLowerCase b.
Proof. induction a as [|c a IH]; simpl; [|rewrite IH]; reflexivity. Qed.

Lemma prefix_app x b : String.prefix x (x ++ b) = true.
Proof.
  induction x as [|c x IH]; simpl; [destruct b; reflexivity|].
  destruct (ascii_dec c c); [exact IH | contradiction].
Qed.

Lemma includes_app x a b : includes x (a ++ x ++ b) = true.
Proof.
  induction a as [|c a IH].
  - change ("" ++ x ++ b) with (x ++ b).
    destruct (x ++ b) eqn:E; unfold includes; fold includes;
      rewrite <- E, prefix_app; reflexivity.
  - change (String c a ++ x ++ b) with (String c (a ++ x ++ b)).
    unfold includes; fold includes. rewrite IH. apply orb_true_r.
Qed.

Lemma lower_isSpace c : isSpace c = true -> lower c = c.
Proof.
  unfold isSpace, lower. intros H.
  destruct ((65 <=? code c) && (code c <=? 90)
            || (192 <=? code c) && (code c <=? 222) && negb (code c =? 215))
    eqn:E; [|reflexivity].
  exfalso. lia.
Qed.

(** White space is cut off up to a character that is none... *)
Lemma trimStart_keeps pre c r :
  isSpace c = false ->
  exists pre', trimStart (pre ++ String c r) = pre' ++ String c r.
Proof.
  intros Hc. induction pre as [|x pre IH].
  - exists "". simpl. rewrite Hc. reflexivity.
  - simpl. destruct (isSpace x); [exact IH|].
    exists (String x pre). reflexivity.
Qed.

(** ... and from the end back to one. *)
Lemma trimEnd_keeps pre c r :
  isSpace c = false ->
  exists r', trimEnd (pre ++ String c r) = pre ++ String c r'.
Proof.
  intros Hc. destruct (trimEnd_head c r Hc) as (r' & E). exists r'.
  induction pre as [|x pre IH]; [exact E|].
  change (String x pre ++ String c r) with (String x (pre ++ String c r)).
  cbn [trimEnd]. rewrite IH.
  destruct (pre ++ String c r') eqn:E'; [destruct pre; discriminate E'|].
  simpl. rewrite E'. reflexivity.
Qed.

Lemma is_header_text_any_case pre w post :
  toLowerCase w = "origin" ->
  Spec.is_header_text (pre ++ w ++ post) = true.
Proof.
  intros Hw.
  destruct w as [|c1 [|c2 [|c3 [|c4 [|c5 [|c6 [|c7 w]]]]]]];
    try discriminate Hw.
  injection Hw as H1 H2 H3 H4 H5 H6.
  assert (S1 : isSpace c1 = false).
  { destruct (isSpace c1) eqn:E; [|reflexivity].
    rewrite (lower_isSpace c1 E) in H1. subst c1. discriminate E. }
  assert (S6 : isSpace c6 = false).
  { destruct (isSpace c6) eqn:E; [|reflexivity].
    rewrite (lower_isSpace c6 E) in H6. subst c6. discriminate E. }
  unfold Spec.is_header_text, trim.
  set (mid := String c2 (String c3 (String c4 (String c5 "")))).
  change (pre ++ String c1 (String c2 (String c3 (String c4 (String c5
            (String c6 ""))))) ++ post)
    with (pre ++ String c1 (mid ++ String c6 post)).
  destruct (trimStart_keeps pre c1 (mid ++ String c6 post) S1) as (pre' & ->).
  replace (pre' ++ String c1 (mid ++ String c6 post))
    with ((pre' ++ String c1 mid) ++ String c6 post)
    by (rewrite append_assoc; reflexivity).
  destruct (trimEnd_keeps (pre' ++ String c1 mid) c6 post S6) as (post' & ->).
  rewrite append_assoc.
  change (String c1 mid ++ String c6 post')
    with (String c1 (String c2 (String c3 (String c4 (String c5
            (String c6 ""))))) ++ post').
  rewrite !toLowerCase_app. cbn [toLowerCase].
  rewrite H1, H2, H3, H4, H5, H6.
  apply (includes_app "origin").
Qed.

(** X14. The header test looks at letters, not at their case or place: a
    row whose third cell holds "origin" in any mix of capital and small
    letters, with any text before and behind it, gives no record.  This
    holds for a header [Origin/Destination] and for a flight to a place
    with such a name alike. *)
Theorem header_in_any_case_is_skipped flights row pre w post :
  Cheerio.text (Cheerio.wrap (nth_error (Spec.cells row) 2)) = pre ++ w ++ post ->
  toLowerCase w = "origin" ->
  each_row flights row = flights.
Proof.
  intros Ht Hw. rewrite each_row_record. unfold Spec.row_record.
  destruct (Spec.cells row)
    as [|c0 [|c1 [|c2 [|c3 [|c4 [|c5 [|c6 rest]]]]]]];
    try apply app_nil_r.
  cbn [nth_error Cheerio.wrap Cheerio.text map String.concat] in Ht.
  rewrite Ht, (is_header_text_any_case pre w post Hw). apply app_nil_r.
Qed.

Lemma header_in_any_case_is_skipped_witness :
  each_row [Sample.flight] Sample.header = [Sample.flight].
Proof.
  exact (header_in_any_case_is_skipped [Sample.flight] Sample.header
           " " "Origin" "/Destination " eq_refl eq_refl).
Defined.

(** ** FreshnessCache and handler *)

Lemma api_departures_fresh cache now r now' :
  serves_from_cache cache now = true ->
  exists flights,
    data cache = Some flights /\
    api_departures cache now r now' = mkOutcome cache (Json flights) [].
Proof.
  unfold serves_from_cache, api_departures.
  destruct (data cache) as [flights|]; [|discriminate].
  intros ->. exists flights. split; reflexivity.
Qed.

Lemma refresh_events cache r now' : events (refresh cache r now') = session r.
Proof.
  unfold refresh. destruct (fetch_flights r); [reflexivity|].
  destruct (data cache); reflexivity.
Qed.

(** X15. A request launches the browser once at most, and only when it is
    not answered from a fresh cache.  A browser that was launched is closed
    before the request ends, whether the page was delivered, had a status
    that is no success, or raised; when the launch itself raises there is
    no browser and nothing is closed. *)
Theorem launched_browser_is_closed cache now r now' :
  let ev := events (api_departures cache now r now') in
  (serves_from_cache cache now = true -> ev = []) /\
  (serves_from_cache cache now = false ->
   (forall message, r = LaunchRejects message -> ev = [LaunchBrowser]) /\
   ((forall message, r <> LaunchRejects message) ->
    ev = [LaunchBrowser; CloseBrowser])).
Proof.
  cbn zeta. split.
  - intros H. destruct (api_departures_fresh cache now r now' H)
      as (flights & _ & ->). reflexivity.
  - intros H. rewrite (api_departures_stale _ _ _ _ H), refresh_events.
    split.
    + intros message ->. reflexivity.
    + intros Hr. destruct r as [m|m|ok code body]; try reflexivity.
      exfalso. exact (Hr m eq_refl).
Qed.

(** X16. The cache changes only when a refresh delivers the page with
    success, and then as a whole: its records become the parsed flights of
    that page, which are also the answer, and its time the time of the
    write.  A fresh hit, a failed launch, a failed page and a status that is
    no success all leave records and time as they were. *)
Theorem cache_is_written_only_on_success cache now r now' :
  let o := api_departures cache now r now' in
  cache_after o = cache \/
  exists status_code body,
    r = Responds true status_code body /\
    serves_from_cache cache now = false /\
    cache_after o = mkCache (Some (parseFlights body)) now' /\
    response o = Json (parseFlights body).
Proof.
  cbn zeta. destruct (serves_from_cache cache now) eqn:H.
  - left. destruct (api_departures_fresh cache now r now' H)
      as (flights & _ & ->). reflexivity.
  - rewrite (api_departures_stale _ _ _ _ H).
    destruct r as [m|m|[|] code body].
    + left.
      exact (proj1 (refresh_failure cache (LaunchRejects m) now' m eq_refl)).
    + left.
      exact (proj1 (refresh_failure cache (PageRejects m) now' m eq_refl)).
    + right. exists code, body. rewrite refresh_success. auto.
    + left.
      exact (proj1 (refresh_failure cache (Responds false code body) now'
                      _ eq_refl)).
Qed.

(** X17. What a request is answered with is what the cache holds when the
    request ends: a JSON answer is the records of the cache, and the answer
    500 comes with a cache that still has none. *)
Theorem answer_is_the_cache_content cache now r now' :
  let o := api_departures cache now r now' in
  match response o with
  | Json flights => data (cache_after o) = Some flights
  | Status500 _ _ => data (cache_after o) = None /\ cache_after o = cache
  end.
Proof.
  cbn zeta. unfold api_departures, refresh.
  destruct (data cache) as [flights|] eqn:Ed.
  - destruct (isCacheFresh cache now); [exact Ed|].
    destruct (fetch_flights r); cbn; [reflexivity | exact Ed].
  - destruct (fetch_flights r); cbn; [reflexivity|].
    split; [exact Ed | reflexivity].
Qed.

(** X18. After a refresh that delivered the page at time t, a request
    before t + 15 minutes gets the same answer without a launch of the
    browser and leaves the cache alone; a request at t + 15 minutes sharp,
    or later, launches the browser again. *)
Theorem refreshed_cache_serves_the_window
        cache now status_code body now' now2 r2 now2' :
  serves_from_cache cache now = false ->
  let o := api_departures cache now (Responds true status_code body) now' in
  (now2 < now' + 15 * 60 * 1000 ->
   api_departures (cache_after o) now2 r2 now2' =
   mkOutcome (cache_after o) (response o) []) /\
  (now' + 15 * 60 * 1000 <= now2 ->
   In LaunchBrowser (events (api_departures (cache_after o) now2 r2 now2'))).
Proof.
  intros H o. subst o.
  rewrite (api_departures_stale _ _ _ _ H), refresh_success.
  cbn [cache_after response]. split.
  - intros Hlt. unfold api_departures, isCacheFresh. cbn [data lastFetch].
    replace (now2 - now' <? CACHE_DURATION) with true; [reflexivity|].
    symmetry. apply Z.ltb_lt. unfold CACHE_DURATION. lia.
  - intros Hge. rewrite api_departures_stale.
    + rewrite refresh_events. destruct r2; left; reflexivity.
    + unfold serves_from_cache, isCacheFresh. cbn [data lastFetch].
      apply Z.ltb_ge. unfold CACHE_DURATION. lia.
Qed.

Lemma refreshed_cache_serves_the_window_witness :
  api_departures Sample.cache (Sample.t0 + 899999)
                 (LaunchRejects "no chrome") (Sample.t0 + 900000)
  = mkOutcome Sample.cache (Json [Sample.flight; Sample.bare_flight]) [].
Proof.
  exact (proj1
    (refreshed_cache_serves_the_window initial_cache Sample.t0 200 Sample.html
       Sample.t0 (Sample.t0 + 899999) (LaunchRejects "no chrome")
       (Sample.t0 + 900000) eq_refl) eq_refl).
Defined.

(** *** Rows inside rows *)

(** Induction on a node, with the property for all children at hand. *)
Fixpoint node_induction (P : node -> Prop)
    (HText : forall data, P (Text data))
    (HComment : forall data, P (Comment data))
    (HElement : forall name attribs children,
        Forall P children -> P (Element name attribs children))
    (n : node) : P n :=
  match n with
  | Text data => HText data
  | Comment data => HComment data
  | Element name attribs children =>
      HElement name attribs children
        ((fix all (l : list node) : Forall P l :=
            match l with
            | [] => Forall_nil P
            | c :: l' =>
                Forall_cons c
                  (node_induction P HText HComment HElement c) (all l')
            end) children)
  end.

(** What is selected below a selected element is selected. *)
Lemma select_below a b n :
  forall m x,
    In m (Cheerio.select a n) ->
    In x (Cheerio.select_all b (Cheerio.children_of m)) ->
    In x (Cheerio.select b n).
Proof.
  induction n as [data|data|name attribs children IH] using node_induction;
    intros m x Hm Hx; try contradiction.
  cbn [Cheerio.select] in Hm |- *. apply in_or_app. right.
  apply in_app_or in Hm. destruct Hm as [Hm|Hm].
  - destruct (name =? a)%string; [|contradiction].
    destruct Hm as [<-|[]]. exact Hx.
  - apply in_flat_map in Hm. destruct Hm as (child & Hc & Hm).
    apply in_flat_map. exists child. split; [exact Hc|].
    rewrite Forall_forall in IH. exact (IH child Hc m x Hm Hx).
Qed.

(** X19. The cells of a row are all [td] elements below it, at any depth:
    when a row encloses another row, in a table inside one of its cells,
    every cell of the inner row is also a cell of the outer row and counts
    for its 7 cells. *)
Theorem cells_of_inner_rows_count row inner cell :
  In inner (Cheerio.find "tr" (Cheerio.wrap (Some row))) ->
  In cell (Spec.cells inner) ->
  In cell (Spec.cells row).
Proof.
  unfold Spec.cells, Cheerio.find, Cheerio.wrap. cbn [flat_map].
  rewrite !app_nil_r. unfold Cheerio.select_all at 1 3.
  intros Hi Hc. apply in_flat_map in Hi. destruct Hi as (child & Hch & Hi).
  apply in_flat_map. exists child. split; [exact Hch|].
  exact (select_below "tr" "td" child inner cell Hi Hc).
Qed.

Lemma cells_of_inner_rows_count_witness :
  In (Sample.td [Text "Boarding"]) (Spec.cells Sample.outer_row).
Proof.
  apply (cells_of_inner_rows_count Sample.outer_row Sample.flight_row).
  - vm_compute. left. reflexivity.
  - vm_compute. do 6 right. left. reflexivity.
Defined.

(** The outer row has one cell of its own and 7 of the inner row: it gives
    a record too, with every text one cell off. *)
Example outer_row_gives_a_shifted_record :
  parseFlights [Sample.outer_row] =
  [mkFlight (Some "/img/indigo_logo.png") "indigo" "" "6E 123"
            "--:--" "--:--" (Int 0) "23:50 00:10" "21";
   Sample.flight].
Proof. vm_compute. reflexivity. Qed.

